(** * The session-oriented HTTP transport of the Jira MCP server

    A shallow embedding of the TypeScript transport with the [SessionManager]
    class ([src/transports/streamable-http-transport.js], the variant with
    [handleGetMcp], [handlePostMcp] and [handleDeleteMcp]) and the properties
    of its session registry and of its three endpoint handlers.

    Conventions of the embedding:
    - a JavaScript [Map<string, Session>] is a [gmap string Session]; no
      property below depends on the iteration order of the map;
    - a [Date] is the integer number of milliseconds since the epoch ([Z]);
      the arithmetic of [cleanupStale] is exact on such values;
    - the results of [randomUUID()] and of [new Date()] / [Date.now()] are
      inputs of the functions that call them, one argument per call;
    - an Express response object is a record of what has been written to it;
      a session refers to its response by a handle (the position of the
      stream in the server's table of open streams);
    - console output is not part of the state, except the count printed by
      [cleanupStale], which is the only way that count leaves the method. *)

From Stdlib Require Import ZArith Lia.
From stdpp Require Import gmap strings list fin_maps.

Local Open Scope Z_scope.
Local Open Scope string_scope.

(** ** JavaScript values *)

(** The values that the transport returns or serialises with [res.json]. *)
#[warnings="-register-all"]
Inductive JsVal : Type :=
| JUndefined
| JNull
| JBool (b : bool)
| JNum (n : Z)
| JStr (s : string)
| JArr (items : list JsVal)
| JObj (fields : list (string * JsVal)).

(** The own keys of an object, in order; other values have none. *)
Definition keys (v : JsVal) : list string :=
  match v with
  | JObj fields => fields.*1
  | _ => []
  end.

(** Property access [v.k]; [JUndefined] when the property is missing. *)
Fixpoint assoc (k : string) (fields : list (string * JsVal)) : JsVal :=
  match fields with
  | [] => JUndefined
  | (k', v) :: rest => if decide (k = k') then v else assoc k rest
  end.

Definition prop (k : string) (v : JsVal) : JsVal :=
  match v with
  | JObj fields => assoc k fields
  | _ => JUndefined
  end.

(** ** Sessions and the session manager *)

(** [interface Session]: [response] is the handle of the Express response
    that carries the event stream. *)
Record Session : Type := mkSession {
  id : string;
  response : nat;
  createdAt : Z;
  lastActivity : Z
}.

(** [session.lastActivity = d] *)
Definition setLastActivity (d : Z) (s : Session) : Session :=
  {| id := id s; response := response s;
     createdAt := createdAt s; lastActivity := d |}.

(** [class SessionManager], with its private field [sessions]. *)
Record SessionManager : Type := mkSessionManager {
  sessions : gmap string Session
}.

(** [new SessionManager()] *)
Definition newSessionManager : SessionManager := {| sessions := ∅ |}.

Module JSON_RPC_ERROR_CODES.
Definition INVALID_REQUEST : Z := -32600.
Definition METHOD_NOT_FOUND : Z := -32601.
Definition INVALID_PARAMS : Z := -32602.
Definition INTERNAL_ERROR : Z := -32603.
Definition SERVER_ERROR : Z := -32000.
Definition UNAUTHORIZED : Z := -32001.
End JSON_RPC_ERROR_CODES.

Module CORS_CONFIG.
Definition ALLOW_ORIGIN : string := "*".
Definition ALLOW_METHODS : string := "GET, POST, DELETE, OPTIONS".
Definition ALLOW_HEADERS : string := "Content-Type, Mcp-Session-Id".
Definition EXPOSE_HEADERS : string := "Mcp-Session-Id".
End CORS_CONFIG.

Module SESSION_CONFIG.
Definition MAX_AGE_MS : Z := 3600000.
Definition CLEANUP_INTERVAL_MS : Z := 300000.
End SESSION_CONFIG.

(** [createSession(res)]: [uuid] is the value of [randomUUID()], [tCreated]
    and [tActive] the two successive values of [new Date()]. *)
Definition createSession (res : nat) (uuid : string) (tCreated tActive : Z)
    (sm : SessionManager) : string * SessionManager :=
  let sessionId := uuid in
  (sessionId,
   {| sessions :=
        <[sessionId := {| id := sessionId; response := res;
                          createdAt := tCreated; lastActivity := tActive |}]>
          (sessions sm) |}).

(** [getSession(sessionId)]: the session object is shared with the map, so
    the assignment to [lastActivity] is seen by the entry of the map. *)
Definition getSession (sessionId : string) (now : Z) (sm : SessionManager)
    : option Session * SessionManager :=
  match sessions sm !! sessionId with
  | Some session =>
      let session' := setLastActivity now session in
      (Some session', {| sessions := <[sessionId := session']> (sessions sm) |})
  | None => (None, sm)
  end.

(** [validateSession(sessionId)] *)
Definition validateSession (sessionId : string) (sm : SessionManager) : bool :=
  bool_decide (is_Some (sessions sm !! sessionId)).

(** [deleteSession(sessionId)] *)
Definition deleteSession (sessionId : string) (sm : SessionManager)
    : SessionManager :=
  match sessions sm !! sessionId with
  | Some _ => {| sessions := delete sessionId (sessions sm) |}
  | None => sm
  end.

(** The test of the loop of [cleanupStale]. *)
Definition stale (now maxAgeMs : Z) (session : Session) : bool :=
  bool_decide (now - lastActivity session > maxAgeMs).

(** One turn of the loop of [cleanupStale], on the manager and the local
    counter [cleanedCount]. *)
Definition cleanupStale_body (now maxAgeMs : Z)
    (acc : SessionManager * Z) (entry : string * Session)
    : SessionManager * Z :=
  let '(sessionId, session) := entry in
  if stale now maxAgeMs session
  then (deleteSession sessionId acc.1, acc.2 + 1)
  else acc.

(** What a call of [cleanupStale] leaves behind: the value it returns to its
    caller, the count it prints (if it prints one) and the manager. *)
Record CleanupOutcome : Type := mkCleanupOutcome {
  returned : JsVal;
  printedCount : option Z;
  manager : SessionManager
}.

(** [cleanupStale(maxAgeMs)]: [now] is the value of [Date.now()]. The method
    is declared [void] and has no [return] statement. *)
Definition cleanupStale (maxAgeMs : Z) (now : Z) (sm : SessionManager)
    : CleanupOutcome :=
  let '(sm', cleanedCount) :=
    foldl (cleanupStale_body now maxAgeMs) (sm, 0)
          (map_to_list (sessions sm)) in
  {| returned := JUndefined;
     printedCount := if bool_decide (cleanedCount > 0)
                     then Some cleanedCount else None;
     manager := sm' |}.

(** The default value of the parameter [maxAgeMs]. *)
Definition cleanupStale_default : Z -> SessionManager -> CleanupOutcome :=
  cleanupStale 3600000.

(** [getActiveCount()] *)
Definition getActiveCount (sm : SessionManager) : Z :=
  Z.of_nat (size (sessions sm)).

(** ** Requests and responses *)

(** What [express.json] made of the body of a request before the handlers
    run. The parser belongs to Express; its verdict is an input. *)
Inductive BodyOutcome : Type :=
| BodyParsed (value : JsVal)
| BodySyntaxError (message : string)
| BodyOtherError (statusCode : Z).

(** An incoming request on the [/mcp] path. Node gives the names of the
    headers in lower case, whatever their spelling on the wire. *)
Record Request : Type := mkRequest {
  method : string;
  headers : gmap string string;
  body : BodyOutcome
}.

(** An Express response object, as the record of what was done to it. *)
Record Res : Type := mkRes {
  statusCode : Z;
  resHeaders : list (string * string);
  written : list string;
  jsonBody : option JsVal;
  ended : bool
}.

(** A response nothing has been written to. *)
Definition newResponse : Res :=
  {| statusCode := 200; resHeaders := []; written := [];
     jsonBody := None; ended := false |}.

(** [res.status(code)] *)
Definition res_status (code : Z) (res : Res) : Res :=
  {| statusCode := code; resHeaders := resHeaders res;
     written := written res; jsonBody := jsonBody res; ended := ended res |}.

(** [res.setHeader(name, value)] and [res.header(name, value)] *)
Definition res_setHeader (name value : string) (res : Res) : Res :=
  {| statusCode := statusCode res;
     resHeaders := resHeaders res ++ [(name, value)];
     written := written res; jsonBody := jsonBody res; ended := ended res |}.

(** [res.write(chunk)] *)
Definition res_write (chunk : string) (res : Res) : Res :=
  {| statusCode := statusCode res; resHeaders := resHeaders res;
     written := written res ++ [chunk];
     jsonBody := jsonBody res; ended := ended res |}.

(** [res.json(value)] sends the value and ends the response. *)
Definition res_json (value : JsVal) (res : Res) : Res :=
  {| statusCode := statusCode res; resHeaders := resHeaders res;
     written := written res; jsonBody := Some value; ended := true |}.

(** [res.end()] *)
Definition res_end (res : Res) : Res :=
  {| statusCode := statusCode res; resHeaders := resHeaders res;
     written := written res; jsonBody := jsonBody res; ended := true |}.

(** [res.sendStatus(code)] *)
Definition res_sendStatus (code : Z) (res : Res) : Res :=
  res_end (res_status code res).

(** ** Validation and error helpers *)

(** [validateSessionIdHeader(sessionId)] *)
Definition validateSessionIdHeader (sessionId : option string) : bool :=
  match sessionId with
  | Some s => bool_decide (0 < String.length s)%nat
  | None => false
  end.

(** [extractSessionId(req)] *)
Definition extractSessionId (req : Request) : option string :=
  headers req !! "mcp-session-id".

(** [createJsonRpcError(code, message, id)]; an omitted [id] is
    [JUndefined], and the spread of [false] adds no property. *)
Definition createJsonRpcError (code : Z) (message : string) (rid : JsVal)
    : JsVal :=
  JObj ([("jsonrpc", JStr "2.0");
         ("error", JObj [("code", JNum code); ("message", JStr message)])]
        ++ match rid with
           | JUndefined => []
           | _ => [("id", rid)]
           end).

(** [sendJsonRpcError(res, statusCode, errorCode, message)] *)
Definition sendJsonRpcError (res : Res) (status errorCode : Z)
    (message : string) : Res :=
  res_json (createJsonRpcError errorCode message JUndefined)
           (res_status status res).

(** ** Endpoint handlers *)

(** What [handleGetMcp] leaves behind: the response, the manager, and the
    session identifier captured by the listener it registers for the
    [close] event of the request. *)
Record GetOutcome : Type := mkGetOutcome {
  getRes : Res;
  getManager : SessionManager;
  onClose : string
}.

(** The line feed of the initial comment of the stream. *)
Definition LF : string := String (Ascii.ascii_of_nat 10) EmptyString.

(** [handleGetMcp(req, res, sessionManager)]: [h] is the handle of [res]. *)
Definition handleGetMcp (req : Request) (h : nat) (res : Res)
    (uuid : string) (tCreated tActive : Z) (sm : SessionManager)
    : GetOutcome :=
  let '(sessionId, sm1) := createSession h uuid tCreated tActive sm in
  let res1 := res_setHeader "Content-Type" "text/event-stream" res in
  let res2 := res_setHeader "Cache-Control" "no-cache" res1 in
  let res3 := res_setHeader "Connection" "keep-alive" res2 in
  let res4 := res_setHeader "Mcp-Session-Id" sessionId res3 in
  {| getRes :=
       res_write (": MCP Streamable HTTP connection established" +:+ LF +:+ LF)
                 res4;
     getManager := sm1;
     onClose := sessionId |}.

(** [handlePostMcp(req, res, sessionManager)]; [now] is the value that
    [new Date()] has inside [getSession]. After the type guard the header is
    a string, so the default of the unwrapping is never used. *)
Definition handlePostMcp (req : Request) (res : Res) (now : Z)
    (sm : SessionManager) : Res * SessionManager :=
  let sessionId := extractSessionId req in
  if negb (validateSessionIdHeader sessionId) then
    (sendJsonRpcError res 400 JSON_RPC_ERROR_CODES.INVALID_REQUEST
       "Bad Request: Missing Mcp-Session-Id header", sm)
  else
    let '(session, sm') := getSession (default "" sessionId) now sm in
    match session with
    | None =>
        (sendJsonRpcError res 401 JSON_RPC_ERROR_CODES.UNAUTHORIZED
           "Unauthorized: Invalid or expired session ID", sm')
    | Some _ =>
        (res_json (JObj [("accepted", JBool true)]) (res_status 202 res), sm')
    end.

(** The truth value of a header in a condition: [undefined] and the empty
    string are falsy. *)
Definition truthy (v : option string) : bool :=
  match v with
  | Some s => negb (bool_decide (s = ""))
  | None => false
  end.

(** [handleDeleteMcp(req, res, sessionManager)] *)
Definition handleDeleteMcp (req : Request) (res : Res) (sm : SessionManager)
    : Res * SessionManager :=
  let sessionId := extractSessionId req in
  let sm' := if truthy sessionId
             then deleteSession (default "" sessionId) sm
             else sm in
  (res_end (res_status 204 res), sm').

(** [configureCors]: the four headers; [true] when [next()] is called. *)
Definition configureCors (req : Request) (res : Res) : Res * bool :=
  let res1 := res_setHeader "Access-Control-Allow-Origin"
                CORS_CONFIG.ALLOW_ORIGIN res in
  let res2 := res_setHeader "Access-Control-Allow-Methods"
                CORS_CONFIG.ALLOW_METHODS res1 in
  let res3 := res_setHeader "Access-Control-Allow-Headers"
                CORS_CONFIG.ALLOW_HEADERS res2 in
  let res4 := res_setHeader "Access-Control-Expose-Headers"
                CORS_CONFIG.EXPOSE_HEADERS res3 in
  if bool_decide (method req = "OPTIONS")
  then (res_sendStatus 200 res4, false)
  else (res4, true).

(** The error middleware registered after [express.json]: [Some] response
    when it answers the error itself, [None] when it calls [next(err)]. Only
    a parse failure of the body is a [SyntaxError] that carries a [body]. *)
Definition jsonErrorHandler (err : BodyOutcome) (res : Res) : option Res :=
  match err with
  | BodySyntaxError _ =>
      Some (sendJsonRpcError res 400 JSON_RPC_ERROR_CODES.INVALID_REQUEST
              "Bad Request: Malformed JSON")
  | _ => None
  end.

(** The error handler of Express itself, where [next(err)] ends: it answers
    with the status that the error carries when that is a 4xx or 5xx status
    (400 for a parse failure), and with 500 otherwise. The page it writes is
    not represented. *)
Definition expressErrorHandler (err : BodyOutcome) (res : Res) : Res :=
  match err with
  | BodyParsed _ => res
  | BodySyntaxError _ => res_sendStatus 400 res
  | BodyOtherError status =>
      if bool_decide (400 <= status < 600)
      then res_sendStatus status res
      else res_sendStatus 500 res
  end.

(** ** The server *)

(** An event stream that [GET /mcp] opened: its response, the session
    identifier that the [close] listener of its request captured, and
    whether the [close] event has been emitted. *)
Record Stream : Type := mkStream {
  streamRes : Res;
  closeListener : string;
  closed : bool
}.

(** A stream is open while nobody has ended its response and its
    connection has not been closed. *)
Definition isOpen (st : Stream) : bool :=
  negb (closed st) && negb (ended (streamRes st)).

(** The state of [createHttpTransport]: the session manager and the
    responses of the streams, in the order of their creation. *)
Record Server : Type := mkServer {
  sessionManager : SessionManager;
  streams : list Stream
}.

Definition initServer : Server :=
  {| sessionManager := newSessionManager; streams := [] |}.

(** What the runtime supplies while one request is handled: the value of
    [randomUUID()] and the readings of the clock. *)
Record Runtime : Type := mkRuntime {
  uuid : string;
  clock1 : Z;
  clock2 : Z
}.

(** The handler of [app.all("/mcp", ...)]. None of the modelled operations
    throws, so the [catch] branch is not represented. *)
Definition mcpEndpoint (req : Request) (res : Res) (rt : Runtime)
    (srv : Server) : Res * Server :=
  if bool_decide (method req = "GET") then
    let h := length (streams srv) in
    let out := handleGetMcp req h res (uuid rt) (clock1 rt) (clock2 rt)
                 (sessionManager srv) in
    (getRes out,
     {| sessionManager := getManager out;
        streams := streams srv ++
                   [{| streamRes := getRes out;
                       closeListener := onClose out;
                       closed := false |}] |})
  else if bool_decide (method req = "POST") then
    let '(res', sm') := handlePostMcp req res (clock1 rt)
                          (sessionManager srv) in
    (res', {| sessionManager := sm'; streams := streams srv |})
  else if bool_decide (method req = "DELETE") then
    let '(res', sm') := handleDeleteMcp req res (sessionManager srv) in
    (res', {| sessionManager := sm'; streams := streams srv |})
  else
    (res_json (JObj [("error", JStr "Method Not Allowed");
                     ("allowed", JArr [JStr "GET"; JStr "POST";
                                       JStr "DELETE"])])
              (res_status 405 res), srv).

(** The chain that a request on [/mcp] goes through: [configureCors], the
    body parser with the error middleware behind it, then the endpoint. An
    error the middleware passes on ends in the error handler of Express,
    which answers with the status of the error. *)
Definition handleRequest (req : Request) (rt : Runtime) (srv : Server)
    : Res * Server :=
  let '(res, next) := configureCors req newResponse in
  if negb next then (res, srv)
  else
    match body req with
    | BodyParsed _ => mcpEndpoint req res rt srv
    | err =>
        match jsonErrorHandler err res with
        | Some res' => (res', srv)
        | None => (expressErrorHandler err res, srv)
        end
    end.

(** The callback of [setInterval]. *)
Definition cleanupTick (now : Z) (srv : Server) : Server :=
  {| sessionManager :=
       manager (cleanupStale SESSION_CONFIG.MAX_AGE_MS now
                  (sessionManager srv));
     streams := streams srv |}.

(** The [close] event of the request of stream [h]: emitted once; its
    listener deletes the session whose identifier it captured. *)
Definition closeStream (h : nat) (srv : Server) : Server :=
  match streams srv !! h with
  | Some st =>
      if closed st then srv
      else
        {| sessionManager := deleteSession (closeListener st)
                               (sessionManager srv);
           streams := <[h := {| streamRes := streamRes st;
                                closeListener := closeListener st;
                                closed := true |}]> (streams srv) |}
  | None => srv
  end.

(** What happens to the server. *)
Inductive Event : Type :=
| EvRequest (req : Request) (rt : Runtime)
| EvCleanup (now : Z)
| EvClose (h : nat).

Definition step (srv : Server) (ev : Event) : Server :=
  match ev with
  | EvRequest req rt => (handleRequest req rt srv).2
  | EvCleanup now => cleanupTick now srv
  | EvClose h => closeStream h srv
  end.

Definition run (evs : list Event) (srv : Server) : Server :=
  foldl step srv evs.

(** [randomUUID()] returns the 36 characters of a version 4 UUID. *)
Definition wfEvent (ev : Event) : Prop :=
  match ev with
  | EvRequest _ rt => String.length (uuid rt) = 36%nat
  | _ => True
  end.

(** The states of a server that started with [createHttpTransport]. *)
Inductive reachable : Server -> Prop :=
| reachable_init : reachable initServer
| reachable_step srv ev :
    reachable srv -> wfEvent ev -> reachable (step srv ev).

(** ** Vocabulary of the properties *)

(** The acceptance of a message: status 202 and the body [{accepted: true}]. *)
Definition accepted (res : Res) : Prop :=
  statusCode res = 202 /\ jsonBody res = Some (JObj [("accepted", JBool true)]).

(** The error envelope on the wire, without the optional [id]. *)
Definition envelope (code : Z) (message : string) : JsVal :=
  JObj [("jsonrpc", JStr "2.0");
        ("error", JObj [("code", JNum code); ("message", JStr message)])].

(** The response object as the endpoint receives it, after [configureCors]. *)
Definition corsResponse : Res :=
  {| statusCode := 200;
     resHeaders :=
       [("Access-Control-Allow-Origin", "*");
        ("Access-Control-Allow-Methods", "GET, POST, DELETE, OPTIONS");
        ("Access-Control-Allow-Headers", "Content-Type, Mcp-Session-Id");
        ("Access-Control-Expose-Headers", "Mcp-Session-Id")];
     written := []; jsonBody := None; ended := false |}.

(** The identifier header of a request is missing: absent, or empty. *)
Definition missingId (req : Request) : Prop :=
  extractSessionId req = None \/ extractSessionId req = Some "".

(** The identifier header names no session of the server. *)
Definition unknownId (req : Request) (srv : Server) : Prop :=
  exists x, extractSessionId req = Some x /\ x <> ""
            /\ sessions (sessionManager srv) !! x = None.

(** The calls of the methods of the session manager that change it. *)
Inductive Call : Type :=
| CallCreate (res : nat) (uuid : string) (tCreated tActive : Z)
| CallGet (sessionId : string) (now : Z)
| CallDelete (sessionId : string)
| CallCleanup (maxAgeMs now : Z).

Definition call (sm : SessionManager) (c : Call) : SessionManager :=
  match c with
  | CallCreate res uuid tCreated tActive =>
      (createSession res uuid tCreated tActive sm).2
  | CallGet sessionId now => (getSession sessionId now sm).2
  | CallDelete sessionId => deleteSession sessionId sm
  | CallCleanup maxAgeMs now => manager (cleanupStale maxAgeMs now sm)
  end.

Definition calls (cs : list Call) (sm : SessionManager) : SessionManager :=
  foldl call sm cs.

(** The calls of the session manager that an event makes on a server. *)
Definition callsOf (srv : Server) (ev : Event) : list Call :=
  match ev with
  | EvRequest req rt =>
      if bool_decide (method req = "OPTIONS") then []
      else
        match body req with
        | BodyParsed _ =>
            if bool_decide (method req = "GET") then
              [CallCreate (length (streams srv)) (uuid rt)
                 (clock1 rt) (clock2 rt)]
            else if bool_decide (method req = "POST") then
              if validateSessionIdHeader (extractSessionId req)
              then [CallGet (default "" (extractSessionId req)) (clock1 rt)]
              else []
            else if bool_decide (method req = "DELETE") then
              if truthy (extractSessionId req)
              then [CallDelete (default "" (extractSessionId req))]
              else []
            else []
        | _ => []
        end
  | EvCleanup now => [CallCleanup SESSION_CONFIG.MAX_AGE_MS now]
  | EvClose h =>
      match streams srv !! h with
      | Some st => if closed st then [] else [CallDelete (closeListener st)]
      | None => []
      end
  end.

(** The calls that a sequence of events makes, one event after the other. *)
Fixpoint traceCalls (evs : list Event) (srv : Server) : list Call :=
  match evs with
  | [] => []
  | ev :: rest => (callsOf srv ev ++ traceCalls rest (step srv ev))%list
  end.

(** The time of the next lookup of session [x] among the calls to come. *)
Fixpoint nextLookup (x : string) (cs : list Call) : option Z :=
  match cs with
  | [] => None
  | CallGet y now :: rest =>
      if decide (y = x) then Some now else nextLookup x rest
  | _ :: rest => nextLookup x rest
  end.

(** The calls [cs] keep the cadence of session [x], last looked up at
    [last]: every lookup of [x] comes less than [maxAge] after the one
    before it, every sweep runs with [maxAge] and no later than the next
    lookup of [x], and nothing else deletes [x] or creates it again. *)
Fixpoint cadence (x : string) (maxAge last : Z) (cs : list Call) : Prop :=
  match cs with
  | [] => True
  | CallGet y now :: rest =>
      if decide (y = x)
      then now - last < maxAge /\ cadence x maxAge now rest
      else cadence x maxAge last rest
  | CallCleanup maxAgeMs now :: rest =>
      maxAgeMs = maxAge
      /\ (exists t, nextLookup x rest = Some t /\ now <= t)
      /\ cadence x maxAge last rest
  | CallDelete y :: rest => y <> x /\ cadence x maxAge last rest
  | CallCreate _ u _ _ :: rest => u <> x /\ cadence x maxAge last rest
  end.

(** A request that establishes a stream, with nothing in its headers. *)
Definition establishRequest : Request :=
  {| method := "GET"; headers := ∅; body := BodyParsed (JObj []) |}.

(** The requests that reach [handleGetMcp]. *)
Definition isEstablish (req : Request) : Prop :=
  method req = "GET" /\ exists v, body req = BodyParsed v.

(** The identifier that a response announces in [Mcp-Session-Id]: the value
    that the last [setHeader] of that name has set. *)
Definition announcedId (res : Res) : option string :=
  (list_to_map (reverse (resHeaders res)) : gmap string string)
    !! "Mcp-Session-Id".

(** [N] stream-establish requests one after the other, each with what the
    runtime supplies to it: the identifiers and the final server. *)
Fixpoint establishAll (reqs : list (Request * Runtime)) (srv : Server)
    : list string * Server :=
  match reqs with
  | [] => ([], srv)
  | (req, rt) :: rest =>
      let '(res, srv1) := handleRequest req rt srv in
      let '(ids, srv2) := establishAll rest srv1 in
      (default "" (announcedId res) :: ids, srv2)
  end.

(** The generator never returns an identifier that is in the registry at
    the time of the call. *)
Fixpoint freshIds (reqs : list (Request * Runtime)) (srv : Server) : Prop :=
  match reqs with
  | [] => True
  | (req, rt) :: rest =>
      sessions (sessionManager srv) !! uuid rt = None
      /\ freshIds rest (handleRequest req rt srv).2
  end.

(** Every entry of the registry is filed under the identifier of its
    session, a string of 36 characters, and refers to an open stream whose
    [close] listener captured that identifier. *)
Definition consistent (srv : Server) : Prop :=
  forall k s,
    sessions (sessionManager srv) !! k = Some s ->
    id s = k /\ String.length k = 36%nat
    /\ exists st, streams srv !! response s = Some st
                  /\ isOpen st = true /\ closeListener st = k.

(** The three responses that do not depend on the request beyond its kind. *)
Definition missingIdResponse : Res :=
  sendJsonRpcError corsResponse 400 JSON_RPC_ERROR_CODES.INVALID_REQUEST
    "Bad Request: Missing Mcp-Session-Id header".

Definition malformedResponse : Res :=
  sendJsonRpcError corsResponse 400 JSON_RPC_ERROR_CODES.INVALID_REQUEST
    "Bad Request: Malformed JSON".

Definition noContentResponse : Res := res_end (res_status 204 corsResponse).

(** ** Sample inputs *)

Definition sampleId : string := "6f1c2b9e-8a3d-4c57-9e10-2b7d5a4f3c01".

Definition otherId : string := "0b9d4e7a-52c1-4f3e-a6d8-91c07e25b4aa".

Definition sampleRuntime : Runtime :=
  {| uuid := sampleId; clock1 := 1000; clock2 := 1000 |}.

Definition otherRuntime : Runtime :=
  {| uuid := otherId; clock1 := 2000; clock2 := 2001 |}.

(** The body of a [tools/list] message. *)
Definition sampleBody : JsVal :=
  JObj [("jsonrpc", JStr "2.0"); ("id", JNum 1);
        ("method", JStr "tools/list")].

(** A message request with a well-formed body and the given header. *)
Definition messageRequest (sessionId : option string) : Request :=
  {| method := "POST";
     headers := match sessionId with
                | Some x => {[ "mcp-session-id" := x ]}
                | None => ∅
                end;
     body := BodyParsed sampleBody |}.

(** A message request whose body is not JSON. *)
Definition malformedRequest : Request :=
  {| method := "POST";
     headers := {[ "mcp-session-id" := sampleId ]};
     body := BodySyntaxError "Unexpected token } in JSON at position 1" |}.

(** A terminate request for the given session. *)
Definition terminateRequest (sessionId : string) : Request :=
  {| method := "DELETE";
     headers := {[ "mcp-session-id" := sessionId ]};
     body := BodyParsed (JObj []) |}.

(** Two stream-establish requests, the second from a browser. *)
Definition sampleEstablishes : list (Request * Runtime) :=
  [(establishRequest, sampleRuntime);
   ({| method := "GET";
       headers := {[ "accept" := "text/event-stream" ]};
       body := BodyParsed (JObj []) |}, otherRuntime)].

(** The server after one stream-establish. *)
Definition sampleServer : Server :=
  run [EvRequest establishRequest sampleRuntime] initServer.

(** Calls that keep the session [sampleId] alive with an hour of maximal
    age: lookups at most 50 minutes apart, with sweeps and the creation of
    another session in between. *)
Definition sampleCalls : list Call :=
  [CallGet sampleId 2000;
   CallCleanup 3600000 300000;
   CallCreate 1 otherId 400000 400000;
   CallGet sampleId 3000000;
   CallCleanup 3600000 4200000;
   CallGet sampleId 6000000].

(** ** The rest of the transport *)

(** The handler of [app.get("/health", ...)]; [isoNow] is the value of
    [new Date().toISOString()]. *)
Definition healthHandler (isoNow : string) (sm : SessionManager) (res : Res)
    : Res :=
  res_json (JObj [("status", JStr "healthy");
                  ("service", JStr "jira-mcp");
                  ("transport", JStr "streamable-http");
                  ("protocol", JStr "2025-03-26");
                  ("activeSessions", JNum (getActiveCount sm));
                  ("timestamp", JStr isoNow)])
           res.

(** The number of streams that are open. *)
Definition openCount (srv : Server) : nat :=
  length (filter (fun st => isOpen st = true) (streams srv)).





(** ** The transport before its handlers were split off

    The earlier [createHttpTransport] of the same file has the same
    [SessionManager] and writes the three verbs inline in the handler of
    [app.all("/mcp", ...)]; it has no middleware for parse errors. *)




(** ** The configuration of the transport

    [getTransportConfig] of [src/transports/transport-manager.js] reads the
    environment. Its strings are sequences of UTF-16 code units here, so
    that [split] and [trim] are the ones of JavaScript; [parseInt] and the
    type of its results are left to the language. *)

(** The code units of a literal of ASCII characters. *)
Definition units (s : string) : list N :=
  (fun a => N.of_nat (Ascii.nat_of_ascii a)) <$> String.list_ascii_of_string s.

(** The code units that [trim] removes: white space and line terminators. *)
Definition isWhiteSpace (c : N) : bool :=
  bool_decide (c ∈ [9; 10; 11; 12; 13; 32; 160; 5760; 8232; 8233; 8239;
                    8287; 12288; 65279]%N)
  || bool_decide (8192 <= c <= 8202)%N.

(** [s.trimStart()] *)
Fixpoint trimStart (s : list N) : list N :=
  match s with
  | [] => []
  | c :: rest => if isWhiteSpace c then trimStart rest else s
  end.

(** [s.trim()] *)
Definition trim (s : list N) : list N :=
  reverse (trimStart (reverse (trimStart s))).

(** [s.split(sep)] for a separator of one code unit: the pieces between
    the separators, the empty ones included. *)
Fixpoint split (sep : N) (s : list N) : list (list N) :=
  match s with
  | [] => [[]]
  | c :: rest =>
      if bool_decide (c = sep) then [] :: split sep rest
      else match split sep rest with
           | piece :: pieces => (c :: piece) :: pieces
           | [] => [[c]]
           end
  end.

(** [pieces.join(sep)] *)
Fixpoint join (sep : N) (pieces : list (list N)) : list N :=
  match pieces with
  | [] => []
  | [piece] => piece
  | piece :: rest => piece ++ sep :: join sep rest
  end.

(** The comma. *)
Definition comma : N := 44%N.

(** The truth value of a variable of the environment: a variable that is
    not set and one that is empty are falsy. *)
Definition isSet (v : option (list N)) : bool :=
  match v with
  | Some (_ :: _) => true
  | _ => false
  end.

(** [v || fallback] *)
Definition orElse (v : option (list N)) (fallback : list N) : list N :=
  if isSet v then default [] v else fallback.

(** [v ? v.split(",").map(h => h.trim()).filter(Boolean) : []] *)
Definition commaList (v : option (list N)) : list (list N) :=
  if isSet v
  then filter (fun h => h <> []) (trim <$> split comma (default [] v))
  else [].

(** What [getTransportConfig] returns; [Num] is the type of the numbers of
    JavaScript. *)
Record TransportConfig (Num : Type) : Type := mkTransportConfig {
  mode : list N;
  httpPort : Num;
  endpoint : list N;
  bindAddress : list N;
  corsOrigin : list N;
  allowedHosts : list (list N);
  allowedOrigins : list (list N);
  enableDnsProtection : bool;
  timeout : Num
}.

Arguments mode {Num} _.
Arguments httpPort {Num} _.
Arguments endpoint {Num} _.
Arguments bindAddress {Num} _.
Arguments corsOrigin {Num} _.
Arguments allowedHosts {Num} _.
Arguments allowedOrigins {Num} _.
Arguments enableDnsProtection {Num} _.
Arguments timeout {Num} _.

(** [getTransportConfig()]: [env] is [process.env] and [parseInt10 s] is
    [parseInt(s, 10)]. *)
Definition getTransportConfig {Num : Type} (parseInt10 : list N -> Num)
    (env : gmap string (list N)) : TransportConfig Num :=
  {| mode := orElse (env !! "MCP_TRANSPORT") (units "stdio");
     httpPort := parseInt10 (orElse (env !! "MCP_HTTP_PORT") (units "3000"));
     endpoint := orElse (env !! "MCP_HTTP_ENDPOINT") (units "/mcp");
     bindAddress := orElse (env !! "MCP_BIND_ADDRESS") (units "127.0.0.1");
     corsOrigin := orElse (env !! "MCP_CORS_ORIGIN") (units "*");
     allowedHosts := commaList (env !! "MCP_ALLOWED_HOSTS");
     allowedOrigins := commaList (env !! "MCP_ALLOWED_ORIGINS");
     enableDnsProtection :=
       bool_decide (env !! "MCP_ENABLE_DNS_PROTECTION" = Some (units "true"));
     timeout := parseInt10 (orElse (env !! "MCP_HTTP_TIMEOUT") (units "30000"))
  |}.

(** A string without white space at its ends. *)
Definition trimmed (h : list N) : Prop :=
  (forall c, head h = Some c -> isWhiteSpace c = false)
  /\ (forall c, last h = Some c -> isWhiteSpace c = false).

(** An environment written by hand. *)
Definition sampleEnv : gmap string (list N) :=
  {[ "MCP_TRANSPORT" := units "http";
     "MCP_HTTP_PORT" := [];
     "MCP_ALLOWED_HOSTS" := units " localhost , ,127.0.0.1,," ]}.


(** A request with a verb that the endpoint does not support. *)
Definition patchRequest : Request :=
  {| method := "PATCH";
     headers := {[ "mcp-session-id" := sampleId ]};
     body := BodyParsed (JObj []) |}.


(** * Properties *)

(** ** The session manager *)

Lemma sessions_deleteSession sessionId sm :
  sessions (deleteSession sessionId sm) = delete sessionId (sessions sm).
Proof.
  unfold deleteSession.
  destruct (sessions sm !! sessionId) eqn:E; simpl; [done|].
  by rewrite delete_id.
Qed.

Lemma deleteSession_absent sessionId sm :
  sessions sm !! sessionId = None -> deleteSession sessionId sm = sm.
Proof. intros E. unfold deleteSession. by rewrite E. Qed.

Lemma deleteSession_idem sessionId sm :
  deleteSession sessionId (deleteSession sessionId sm)
  = deleteSession sessionId sm.
Proof.
  apply deleteSession_absent.
  rewrite sessions_deleteSession. apply lookup_delete_eq.
Qed.

Lemma getSession_found sessionId now sm s :
  sessions sm !! sessionId = Some s ->
  getSession sessionId now sm
  = (Some (setLastActivity now s),
     {| sessions := <[sessionId := setLastActivity now s]> (sessions sm) |}).
Proof. intros E. unfold getSession. by rewrite E. Qed.

Lemma getSession_missing sessionId now sm :
  sessions sm !! sessionId = None -> getSession sessionId now sm = (None, sm).
Proof. intros E. unfold getSession. by rewrite E. Qed.

Lemma stale_true now maxAgeMs s :
  stale now maxAgeMs s = true <-> now - lastActivity s > maxAgeMs.
Proof. unfold stale. apply bool_decide_eq_true. Qed.

Lemma stale_false now maxAgeMs s :
  stale now maxAgeMs s = false <-> ~ now - lastActivity s > maxAgeMs.
Proof. unfold stale. apply bool_decide_eq_false. Qed.

(** The loop of [cleanupStale] over any list of distinct entries of the
    manager: it deletes the stale ones, keeps the rest of the map, and adds
    to the counter the number of entries it deleted. *)
Lemma cleanupStale_loop now maxAgeMs (entries : list (string * Session)) :
  forall (sm : SessionManager) (count : Z),
    NoDup entries.*1 ->
    (forall k s, (k, s) ∈ entries -> sessions sm !! k = Some s) ->
    let r := foldl (cleanupStale_body now maxAgeMs) (sm, count) entries in
    (forall k s, (k, s) ∈ entries -> stale now maxAgeMs s = true ->
                 sessions r.1 !! k = None)
    /\ (forall k, (forall s, (k, s) ∈ entries -> stale now maxAgeMs s = false) ->
                  sessions r.1 !! k = sessions sm !! k)
    /\ r.2 = count + Z.of_nat (size (sessions sm))
             - Z.of_nat (size (sessions r.1)).
Proof.
  induction entries as [|[k0 s0] rest IH]; intros sm count Hnd Hin; simpl.
  - repeat split; [by intros ?? ?%elem_of_nil | lia].
  - simpl in Hnd. apply NoDup_cons in Hnd as [Hk0 Hnd].
    assert (Hhead : sessions sm !! k0 = Some s0) by (apply Hin; left).
    assert (Hrest : forall k s, (k, s) ∈ rest -> k <> k0).
    { intros k s Hks ->. apply Hk0. apply list_elem_of_fmap.
      by exists (k0, s). }
    destruct (stale now maxAgeMs s0) eqn:Hst.
    + destruct (IH (deleteSession k0 sm) (count + 1) Hnd) as (D & K & C).
      { intros k s Hks. rewrite sessions_deleteSession.
        rewrite lookup_delete_ne; [apply Hin; by right|].
        intros ->. by eapply Hrest. }
      split; [|split].
      * intros k s [[= -> ->]|Hks]%elem_of_cons Hs; [|by eapply D].
        rewrite K; [by rewrite sessions_deleteSession, lookup_delete_eq|].
        intros s Hks. exfalso. by eapply Hrest.
      * intros k Hk.
        assert (k <> k0) as Hne.
        { intros ->. specialize (Hk s0 ltac:(left)). congruence. }
        rewrite K; [|intros s Hks; apply Hk; by right].
        by rewrite sessions_deleteSession, lookup_delete_ne.
      * rewrite C. rewrite sessions_deleteSession.
        pose proof (map_size_delete_Some k0 (sessions sm) ltac:(eauto)).
        pose proof (map_size_ne_0_lookup_2 (sessions sm) k0 ltac:(eauto)).
        lia.
    + destruct (IH sm count Hnd) as (D & K & C).
      { intros k s Hks. apply Hin. by right. }
      split; [|split]; [| |done].
      * intros k s [[= -> ->]|Hks]%elem_of_cons Hs; [congruence|by eapply D].
      * intros k Hk. apply K. intros s Hks. apply Hk. by right.
Qed.

(** What [cleanupStale] does to each key. *)
Lemma cleanupStale_lookup maxAgeMs now sm k :
  sessions (manager (cleanupStale maxAgeMs now sm)) !! k
  = match sessions sm !! k with
    | Some s => if stale now maxAgeMs s then None else Some s
    | None => None
    end.
Proof.
  unfold cleanupStale.
  pose proof (cleanupStale_loop now maxAgeMs (map_to_list (sessions sm))
                sm 0 (NoDup_fst_map_to_list _)
                (fun k s H => proj1 (elem_of_map_to_list _ _ _) H))
    as (D & K & _).
  destruct (foldl _ _ _) as [sm' n] eqn:E; simpl in *.
  destruct (sessions sm !! k) as [s|] eqn:Ek.
  - destruct (stale now maxAgeMs s) eqn:Hs.
    + eapply D; [by apply elem_of_map_to_list|done].
    + rewrite K; [done|].
      intros s' Hs'%elem_of_map_to_list. congruence.
  - rewrite K; [done|].
    intros s' Hs'%elem_of_map_to_list. congruence.
Qed.

Lemma cleanupStale_printedCount maxAgeMs now sm :
  printedCount (cleanupStale maxAgeMs now sm)
  = let removed := Z.of_nat (size (sessions sm))
                   - Z.of_nat (size (sessions
                                       (manager (cleanupStale maxAgeMs now sm)))) in
    if bool_decide (removed > 0) then Some removed else None.
Proof.
  unfold cleanupStale.
  pose proof (cleanupStale_loop now maxAgeMs (map_to_list (sessions sm))
                sm 0 (NoDup_fst_map_to_list _)
                (fun k s H => proj1 (elem_of_map_to_list _ _ _) H))
    as (_ & _ & C).
  destruct (foldl _ _ _) as [sm' n] eqn:E; simpl in *.
  by rewrite C, Z.add_0_l.
Qed.

(** C2. The expiry sweep [cleanupStale] keeps exactly the sessions whose
    inactivity [now - lastActivity] does not exceed [maxAgeMs], so it removes
    exactly those whose inactivity strictly exceeds it. It returns nothing to
    its caller ([undefined]): the number of sessions removed is only printed,
    and only when it is positive. *)
Theorem cleanupStale_removes_exactly_the_stale maxAgeMs now sm :
  let out := cleanupStale maxAgeMs now sm in
  sessions (manager out)
  = filter (fun entry => ~ now - lastActivity entry.2 > maxAgeMs) (sessions sm)
  /\ returned out = JUndefined
  /\ printedCount out
     = let removed := Z.of_nat (size (sessions sm))
                      - Z.of_nat (size (sessions (manager out))) in
       if bool_decide (removed > 0) then Some removed else None.
Proof.
  split; [|split].
  - apply map_eq. intros k. rewrite cleanupStale_lookup.
    destruct (sessions sm !! k) as [s|] eqn:Ek.
    + destruct (stale now maxAgeMs s) eqn:Hs.
      * symmetry. apply map_lookup_filter_None. right.
        intros s' Es'. simpl. apply stale_true in Hs. naive_solver.
      * symmetry. apply map_lookup_filter_Some. split; [done|].
        simpl. by apply stale_false.
    + symmetry. apply map_lookup_filter_None. by left.
  - unfold cleanupStale. by destruct (foldl _ _ _).
  - apply cleanupStale_printedCount.
Qed.

(** C2, as the specification states it, fails: with one session created at
    time 1000 and a sweep one hour and one millisecond later, the session is
    removed, and the call returns [undefined], not the number 1. *)
Lemma cleanupStale_returns_no_count :
  let sm := (createSession 0 "6f1c2b9e-8a3d-4c57-9e10-2b7d5a4f3c01"
               1000 1000 newSessionManager).2 in
  let out := cleanupStale 3600000 3601001 sm in
  size (sessions sm) = 1%nat
  /\ size (sessions (manager out)) = 0%nat
  /\ returned out <> JNum 1.
Proof. vm_compute. repeat split; discriminate. Qed.

(** ** The endpoint *)

Lemma configureCors_new req :
  configureCors req newResponse
  = if bool_decide (method req = "OPTIONS")
    then (res_sendStatus 200 corsResponse, false)
    else (corsResponse, true).
Proof. reflexivity. Qed.

Lemma handleRequest_POST req rt srv v :
  method req = "POST" -> body req = BodyParsed v ->
  handleRequest req rt srv
  = let '(res, sm) := handlePostMcp req corsResponse (clock1 rt)
                        (sessionManager srv) in
    (res, {| sessionManager := sm; streams := streams srv |}).
Proof.
  intros Hm Hb. unfold handleRequest. rewrite configureCors_new, Hm, Hb.
  simpl. unfold mcpEndpoint. by rewrite Hm.
Qed.

Lemma handleRequest_DELETE req rt srv v :
  method req = "DELETE" -> body req = BodyParsed v ->
  handleRequest req rt srv
  = let '(res, sm) := handleDeleteMcp req corsResponse (sessionManager srv) in
    (res, {| sessionManager := sm; streams := streams srv |}).
Proof.
  intros Hm Hb. unfold handleRequest. rewrite configureCors_new, Hm, Hb.
  simpl. unfold mcpEndpoint. by rewrite Hm.
Qed.

Lemma handleRequest_GET req rt srv v :
  method req = "GET" -> body req = BodyParsed v ->
  handleRequest req rt srv
  = let out := handleGetMcp req (length (streams srv)) corsResponse
                 (uuid rt) (clock1 rt) (clock2 rt) (sessionManager srv) in
    (getRes out,
     {| sessionManager := getManager out;
        streams := streams srv ++ [{| streamRes := getRes out;
                                      closeListener := onClose out;
                                      closed := false |}] |}).
Proof.
  intros Hm Hb. unfold handleRequest. rewrite configureCors_new, Hm, Hb.
  simpl. unfold mcpEndpoint. by rewrite Hm.
Qed.

Lemma handleRequest_malformed req rt srv message :
  method req <> "OPTIONS" -> body req = BodySyntaxError message ->
  handleRequest req rt srv
  = (sendJsonRpcError corsResponse 400 JSON_RPC_ERROR_CODES.INVALID_REQUEST
       "Bad Request: Malformed JSON", srv).
Proof.
  intros Hm Hb. unfold handleRequest. rewrite configureCors_new, Hb.
  by rewrite bool_decide_eq_false_2.
Qed.

(** The effect of a request on the session manager is that of at most one
    call of its methods, and only stream-establish adds a stream. *)
Lemma handleRequest_server req rt srv :
  let srv' := (handleRequest req rt srv).2 in
  (srv' = srv)
  \/ (exists x, srv' = {| sessionManager :=
                            (getSession x (clock1 rt) (sessionManager srv)).2;
                          streams := streams srv |})
  \/ (exists x, srv' = {| sessionManager :=
                            deleteSession x (sessionManager srv);
                          streams := streams srv |})
  \/ (exists res,
        ended res = false
        /\ srv' = {| sessionManager :=
                       (createSession (length (streams srv)) (uuid rt)
                          (clock1 rt) (clock2 rt) (sessionManager srv)).2;
                     streams := streams srv ++
                                [{| streamRes := res;
                                    closeListener := uuid rt;
                                    closed := false |}] |}).
Proof.
  unfold handleRequest. rewrite configureCors_new.
  destruct (bool_decide (method req = "OPTIONS")); simpl; [by left|].
  destruct (body req); simpl; [|by left..].
  unfold mcpEndpoint.
  destruct (bool_decide (method req = "GET")).
  { right; right; right. simpl. eexists. split; [|reflexivity]. done. }
  destruct (bool_decide (method req = "POST")).
  { unfold handlePostMcp.
    destruct (negb (validateSessionIdHeader (extractSessionId req))); simpl.
    - left. by destruct srv.
    - right; left. exists (default "" (extractSessionId req)).
      by destruct (getSession _ _ _) as [[?|] ?]. }
  destruct (bool_decide (method req = "DELETE")); simpl; [|by left].
  unfold handleDeleteMcp.
  destruct (truthy (extractSessionId req)); simpl.
  - right; right; left. by eexists.
  - left. by destruct srv.
Qed.

(** ** Reachable states *)

Lemma consistent_subset srv sm :
  consistent srv ->
  (forall k s, sessions sm !! k = Some s ->
               sessions (sessionManager srv) !! k = Some s) ->
  consistent {| sessionManager := sm; streams := streams srv |}.
Proof. intros Hc Hsub k s Hk. simpl in *. apply Hc, Hsub, Hk. Qed.

Lemma consistent_getSession srv x now :
  consistent srv ->
  consistent {| sessionManager := (getSession x now (sessionManager srv)).2;
                streams := streams srv |}.
Proof.
  intros Hc. unfold getSession.
  destruct (sessions (sessionManager srv) !! x) as [s0|] eqn:Ex; simpl.
  - intros k s. simpl.
    destruct (decide (k = x)) as [->|Hne].
    + rewrite lookup_insert_eq. intros [= <-]. simpl. by apply Hc.
    + rewrite lookup_insert_ne by done. apply Hc.
  - by destruct srv.
Qed.

Lemma consistent_deleteSession srv x :
  consistent srv ->
  consistent {| sessionManager := deleteSession x (sessionManager srv);
                streams := streams srv |}.
Proof.
  intros Hc. apply consistent_subset; [done|].
  intros k s. rewrite sessions_deleteSession.
  by intros [_ ?]%lookup_delete_Some.
Qed.

Lemma consistent_cleanupTick srv now :
  consistent srv -> consistent (cleanupTick now srv).
Proof.
  intros Hc. apply consistent_subset; [done|].
  intros k s. rewrite cleanupStale_lookup.
  destruct (sessions (sessionManager srv) !! k) as [s0|]; [|done].
  by destruct (stale _ _ s0).
Qed.

Lemma consistent_closeStream srv h :
  consistent srv -> consistent (closeStream h srv).
Proof.
  intros Hc. unfold closeStream.
  destruct (streams srv !! h) as [st|] eqn:Eh; [|done].
  destruct (closed st) eqn:Ecl; [done|].
  intros k s. simpl. rewrite sessions_deleteSession.
  intros [Hne Hk]%lookup_delete_Some.
  destruct (Hc k s Hk) as (Hid & Hlen & st' & Est' & Hopen & Hl).
  split; [done|]. split; [done|].
  exists st'. split; [|done].
  rewrite list_lookup_insert_ne; [done|].
  intros E. rewrite <- E in Est'. congruence.
Qed.

Lemma consistent_createSession srv rt res :
  String.length (uuid rt) = 36%nat -> ended res = false ->
  consistent srv ->
  consistent
    {| sessionManager :=
         (createSession (length (streams srv)) (uuid rt) (clock1 rt)
            (clock2 rt) (sessionManager srv)).2;
       streams := streams srv ++ [{| streamRes := res;
                                     closeListener := uuid rt;
                                     closed := false |}] |}.
Proof.
  intros Hlen Hres Hc k s. simpl.
  destruct (decide (k = uuid rt)) as [->|Hne].
  - rewrite lookup_insert_eq. intros [= <-]. simpl.
    split; [done|]. split; [done|].
    eexists. split; [apply list_lookup_middle; done|].
    split; [|done]. unfold isOpen. simpl. by rewrite Hres.
  - rewrite lookup_insert_ne by done. intros Hk.
    destruct (Hc k s Hk) as (Hid & Hl & st & Est & Hopen & Hcl).
    split; [done|]. split; [done|].
    exists st. split; [|done].
    rewrite lookup_app_l; [done|]. by eapply lookup_lt_Some.
Qed.

Lemma step_consistent srv ev :
  wfEvent ev -> consistent srv -> consistent (step srv ev).
Proof.
  intros Hwf Hc. destruct ev as [req rt|now|h]; simpl.
  - destruct (handleRequest_server req rt srv)
      as [->|[[x ->]|[[x ->]|(res & Hres & ->)]]].
    + done.
    + by apply consistent_getSession.
    + by apply consistent_deleteSession.
    + by apply consistent_createSession.
  - by apply consistent_cleanupTick.
  - by apply consistent_closeStream.
Qed.

Lemma reachable_consistent srv : reachable srv -> consistent srv.
Proof.
  induction 1 as [|srv ev _ IH Hwf].
  - intros k s. simpl. by rewrite lookup_empty.
  - by apply step_consistent.
Qed.

Lemma reachable_no_empty_id srv :
  reachable srv -> sessions (sessionManager srv) !! "" = None.
Proof.
  intros Hr%reachable_consistent.
  destruct (sessions (sessionManager srv) !! "") as [s|] eqn:E; [|done].
  by destruct (Hr "" s E) as (_ & Hlen & _).
Qed.

(** ** Message requests *)

Lemma validateSessionIdHeader_Some x :
  validateSessionIdHeader (Some x) = negb (bool_decide (x = "")).
Proof. by destruct x. Qed.

Lemma validateSessionIdHeader_missing req :
  missingId req -> validateSessionIdHeader (extractSessionId req) = false.
Proof. by intros [-> | ->]. Qed.

Lemma sendJsonRpcError_envelope res status code message :
  jsonBody (sendJsonRpcError res status code message)
  = Some (envelope code message)
  /\ statusCode (sendJsonRpcError res status code message) = status.
Proof. done. Qed.

(** The three outcomes of [handlePostMcp]. *)
Lemma handlePostMcp_missing req res now sm :
  missingId req ->
  handlePostMcp req res now sm
  = (sendJsonRpcError res 400 JSON_RPC_ERROR_CODES.INVALID_REQUEST
       "Bad Request: Missing Mcp-Session-Id header", sm).
Proof.
  intros Hm. unfold handlePostMcp.
  by rewrite validateSessionIdHeader_missing.
Qed.

Lemma handlePostMcp_unknown req res now sm x :
  extractSessionId req = Some x -> x <> "" -> sessions sm !! x = None ->
  handlePostMcp req res now sm
  = (sendJsonRpcError res 401 JSON_RPC_ERROR_CODES.UNAUTHORIZED
       "Unauthorized: Invalid or expired session ID", sm).
Proof.
  intros Hx Hne Hno. unfold handlePostMcp.
  rewrite Hx, validateSessionIdHeader_Some, bool_decide_eq_false_2 by done.
  simpl. by rewrite getSession_missing.
Qed.

Lemma handlePostMcp_known req res now sm x s :
  extractSessionId req = Some x -> x <> "" -> sessions sm !! x = Some s ->
  handlePostMcp req res now sm
  = (res_json (JObj [("accepted", JBool true)]) (res_status 202 res),
     {| sessions := <[x := setLastActivity now s]> (sessions sm) |}).
Proof.
  intros Hx Hne Hs. unfold handlePostMcp.
  rewrite Hx, validateSessionIdHeader_Some, bool_decide_eq_false_2 by done.
  simpl. by rewrite (getSession_found _ _ _ s).
Qed.

(** C1. On a server reached from its start, a message request that carries
    the identifier [x] is accepted (status 202, body [{accepted: true}]) if
    and only if the registry holds a session [x]; when [x] is a non-empty
    identifier that the registry does not hold, the answer is status 401 with
    the error code -32001. *)
Theorem message_accepted_iff_session_present srv req rt v x :
  reachable srv ->
  method req = "POST" -> body req = BodyParsed v ->
  extractSessionId req = Some x ->
  let res := (handleRequest req rt srv).1 in
  (accepted res <-> is_Some (sessions (sessionManager srv) !! x))
  /\ (x <> "" -> sessions (sessionManager srv) !! x = None ->
      statusCode res = 401
      /\ jsonBody res
         = Some (envelope (-32001)
                   "Unauthorized: Invalid or expired session ID")).
Proof.
  intros Hr Hm Hb Hx. simpl.
  rewrite (handleRequest_POST _ _ _ v) by done.
  destruct (decide (x = "")) as [->|Hne].
  - rewrite handlePostMcp_missing by (by right). simpl.
    rewrite reachable_no_empty_id by done.
    split; [|done]. split.
    + by intros [? _].
    + by intros [? ?].
  - destruct (sessions (sessionManager srv) !! x) as [s|] eqn:Es.
    + rewrite (handlePostMcp_known _ _ _ _ x s) by done. simpl.
      split; [|done]. split; [by eauto|]. by intros _.
    + rewrite (handlePostMcp_unknown _ _ _ _ x) by done. simpl.
      split; [|done]. split.
      * by intros [? _].
      * by intros [? ?].
Qed.

(** C4. A message request whose identifier header is absent and one whose
    identifier header is the empty string get the same answer, status 400
    with the INVALID_REQUEST envelope of code -32600; the answer is the same
    whatever the registry holds, and the server is left as it was. *)
Theorem message_without_identifier_rejected req rt srv v :
  method req = "POST" -> body req = BodyParsed v ->
  missingId req ->
  handleRequest req rt srv = (missingIdResponse, srv)
  /\ statusCode missingIdResponse = 400
  /\ jsonBody missingIdResponse
     = Some (envelope (-32600) "Bad Request: Missing Mcp-Session-Id header").
Proof.
  intros Hm Hb Hmiss. split; [|done].
  rewrite (handleRequest_POST _ _ _ v) by done.
  rewrite handlePostMcp_missing by done. by destruct srv.
Qed.

(** C6. The failure responses of a message request, for a missing and for
    an unknown identifier, carry a body with exactly the fields [jsonrpc]
    (the string "2.0") and [error], and [error] has exactly the fields
    [code] (an integer) and [message] (a string). *)
Theorem failure_envelope_shape req rt srv v :
  method req = "POST" -> body req = BodyParsed v ->
  missingId req \/ unknownId req srv ->
  exists (payload : JsVal) (code : Z) (message : string),
    jsonBody (handleRequest req rt srv).1 = Some payload
    /\ payload = JObj [("jsonrpc", JStr "2.0");
                       ("error", JObj [("code", JNum code);
                                       ("message", JStr message)])]
    /\ keys payload = ["jsonrpc"; "error"]
    /\ prop "jsonrpc" payload = JStr "2.0"
    /\ keys (prop "error" payload) = ["code"; "message"]
    /\ prop "code" (prop "error" payload) = JNum code
    /\ prop "message" (prop "error" payload) = JStr message.
Proof.
  intros Hm Hb Hfail.
  rewrite (handleRequest_POST _ _ _ v) by done.
  destruct Hfail as [Hmiss|(x & Hx & Hne & Hno)].
  - rewrite handlePostMcp_missing by done. simpl.
    eexists _, _, _. split; [done|]. done.
  - rewrite (handlePostMcp_unknown _ _ _ _ x) by done. simpl.
    eexists _, _, _. split; [done|]. done.
Qed.

(** C10. A message request that is not accepted leaves the whole server as
    it was. An accepted one names a session [x] of the registry and changes
    nothing but the [lastActivity] of that session: its [id], [createdAt]
    and stream handle stay, every other entry of the registry stays, and so
    do the streams. *)
Theorem message_frame req rt srv :
  method req = "POST" ->
  let res := (handleRequest req rt srv).1 in
  let srv' := (handleRequest req rt srv).2 in
  streams srv' = streams srv
  /\ (~ accepted res -> srv' = srv)
  /\ (accepted res ->
      exists x s,
        extractSessionId req = Some x
        /\ sessions (sessionManager srv) !! x = Some s
        /\ sessions (sessionManager srv') !! x
           = Some {| id := id s; response := response s;
                     createdAt := createdAt s; lastActivity := clock1 rt |}
        /\ forall k, k <> x ->
             sessions (sessionManager srv') !! k
             = sessions (sessionManager srv) !! k).
Proof.
  intros Hm. simpl.
  destruct (body req) as [v|message|status] eqn:Hb.
  - rewrite (handleRequest_POST _ _ _ v) by done.
    destruct (extractSessionId req) as [x|] eqn:Hx.
    + destruct (decide (x = "")) as [->|Hne].
      { rewrite handlePostMcp_missing by (by right). simpl.
        split; [done|]. split; [by destruct srv|by intros [? _]]. }
      destruct (sessions (sessionManager srv) !! x) as [s|] eqn:Es.
      * rewrite (handlePostMcp_known _ _ _ _ x s) by done. simpl.
        split; [done|]. split; [by intros []|]. intros _.
        exists x, s. split; [done|]. split; [done|].
        split; [by rewrite lookup_insert_eq|].
        intros k Hk. by rewrite lookup_insert_ne.
      * rewrite (handlePostMcp_unknown _ _ _ _ x) by done. simpl.
        split; [done|]. split; [by destruct srv|by intros [? _]].
    + rewrite handlePostMcp_missing by (by left). simpl.
      split; [done|]. split; [by destruct srv|by intros [? _]].
  - rewrite (handleRequest_malformed _ _ _ message) by (done || by rewrite Hm).
    simpl. split; [done|]. split; [done|by intros [? _]].
  - unfold handleRequest. rewrite configureCors_new, Hm, Hb. simpl.
    split; [done|]. split; [done|].
    intros [_ E]. by destruct (bool_decide _).
Qed.

(** C9. A message request whose body fails to parse is answered by the
    error middleware, ahead of the endpoint: whatever its headers and
    whatever the registry holds, the answer is status 400 with an envelope of
    code -32600, the shape of the answer to a missing identifier with another
    message; it is not the internal error of status 500, and the server is
    left as it was. *)
Theorem malformed_body_rejected_first req rt srv message :
  method req = "POST" -> body req = BodySyntaxError message ->
  handleRequest req rt srv = (malformedResponse, srv)
  /\ statusCode malformedResponse = 400
  /\ jsonBody malformedResponse
     = Some (envelope (-32600) "Bad Request: Malformed JSON")
  /\ jsonBody missingIdResponse
     = Some (envelope (-32600) "Bad Request: Missing Mcp-Session-Id header")
  /\ statusCode malformedResponse <> 500.
Proof.
  intros Hm Hb. split; [|done].
  apply (handleRequest_malformed _ _ _ message); [by rewrite Hm|done].
Qed.

(** ** Terminate requests *)

Lemma handleDeleteMcp_sessions req res sm :
  handleDeleteMcp req res sm
  = (res_end (res_status 204 res),
     match extractSessionId req with
     | Some x => if decide (x = "") then sm else deleteSession x sm
     | None => sm
     end).
Proof.
  unfold handleDeleteMcp. destruct (extractSessionId req) as [x|]; [|done].
  simpl. by destruct (decide (x = "")); simplify_eq; case_bool_decide.
Qed.

(** C5. A terminate request always gets the no-content answer: status 204,
    no body. Sending the same request again gets the same answer and
    changes nothing more; and when the request names no session of the
    registry (no header, an empty one, or an unknown identifier), the first
    request already leaves the server as it was. *)
Theorem terminate_idempotent req rt rt' srv v :
  method req = "DELETE" -> body req = BodyParsed v ->
  let res1 := (handleRequest req rt srv).1 in
  let srv1 := (handleRequest req rt srv).2 in
  let res2 := (handleRequest req rt' srv1).1 in
  let srv2 := (handleRequest req rt' srv1).2 in
  res1 = noContentResponse /\ res2 = noContentResponse
  /\ statusCode noContentResponse = 204
  /\ jsonBody noContentResponse = None
  /\ written noContentResponse = []
  /\ srv2 = srv1
  /\ ((forall x, extractSessionId req = Some x -> x <> "" ->
                 sessions (sessionManager srv) !! x = None) ->
      srv1 = srv).
Proof.
  intros Hm Hb. simpl.
  rewrite !(handleRequest_DELETE _ _ _ v) by done.
  rewrite !handleDeleteMcp_sessions. simpl.
  repeat (split; [done|]).
  destruct (extractSessionId req) as [x|] eqn:Hx.
  - destruct (decide (x = "")) as [->|Hne]; simpl.
    + split; [done|]. intros _. by destruct srv.
    + split; [by rewrite deleteSession_idem|].
      intros Hno. rewrite deleteSession_absent by eauto. by destruct srv.
  - split; [done|]. intros _. by destruct srv.
Qed.

(** ** Streams and sessions *)

(** C3, as the specification states it, fails in the direction from the
    registry to the stream: after a stream-establish and a terminate of its
    session, and likewise after a stream-establish at time 1000 and a sweep
    at time 3601001, the session is gone from the registry while its stream
    is still open. *)
Lemma removed_session_keeps_open_stream :
  let sid := "6f1c2b9e-8a3d-4c57-9e10-2b7d5a4f3c01" in
  let rt := {| uuid := sid; clock1 := 1000; clock2 := 1000 |} in
  let terminate := {| method := "DELETE";
                      headers := {[ "mcp-session-id" := sid ]};
                      body := BodyParsed (JObj []) |} in
  let srv1 := run [EvRequest establishRequest rt; EvRequest terminate rt]
                  initServer in
  let srv2 := run [EvRequest establishRequest rt; EvCleanup 3601001]
                  initServer in
  (sessions (sessionManager srv1) !! sid = None
   /\ (isOpen <$> streams srv1 !! 0%nat) = Some true)
  /\ (sessions (sessionManager srv2) !! sid = None
      /\ (isOpen <$> streams srv2 !! 0%nat) = Some true).
Proof. vm_compute. done. Qed.

(** C3, amended. In every state the server can reach, each entry of the
    registry refers to a stream that is open, and the [close] event of that
    stream removes the entry; a terminate request and an expiry sweep remove
    entries of the registry only and leave every stream as it is. *)
Theorem close_removes_session_and_entries_have_open_streams srv :
  reachable srv ->
  (forall k s,
     sessions (sessionManager srv) !! k = Some s ->
     (isOpen <$> streams srv !! response s) = Some true
     /\ sessions (sessionManager (closeStream (response s) srv)) !! k = None)
  /\ (forall req rt,
        method req = "DELETE" ->
        streams (handleRequest req rt srv).2 = streams srv)
  /\ (forall now, streams (cleanupTick now srv) = streams srv).
Proof.
  intros Hr%reachable_consistent. split; [|split].
  - intros k s Hk.
    destruct (Hr k s Hk) as (_ & _ & st & Est & Hopen & Hcl).
    rewrite Est. simpl. rewrite Hopen. split; [done|].
    unfold closeStream. rewrite Est.
    assert (closed st = false) as ->.
    { unfold isOpen in Hopen. by destruct (closed st). }
    simpl. rewrite sessions_deleteSession, Hcl. apply lookup_delete_eq.
  - intros req rt Hm.
    destruct (body req) as [v|message|status] eqn:Hb.
    + rewrite (handleRequest_DELETE _ _ _ v) by done.
      by rewrite handleDeleteMcp_sessions.
    + by rewrite (handleRequest_malformed _ _ _ message)
        by (done || by rewrite Hm).
    + unfold handleRequest. by rewrite configureCors_new, Hm, Hb.
  - done.
Qed.

(** ** Activity and expiry *)

Lemma cadence_nextLookup x maxAge cs :
  forall last t,
    cadence x maxAge last cs -> nextLookup x cs = Some t ->
    t - last < maxAge.
Proof.
  induction cs as [|c rest IH]; intros last t Hc Hn; [done|].
  destruct c as [res u tc ta|y now|y|m now]; simpl in *.
  - destruct Hc as [_ Hc]. eauto.
  - destruct (decide (y = x)) as [->|Hne].
    + destruct Hc as [Hlt _]. by simplify_eq.
    + eauto.
  - destruct Hc as [_ Hc]. eauto.
  - destruct Hc as (_ & _ & Hc). eauto.
Qed.

(** One call that keeps the cadence leaves session [x] in the registry,
    with its identity, and with the activity time the cadence goes on from. *)
Lemma cadence_call x maxAge c rest sm s :
  sessions sm !! x = Some s ->
  cadence x maxAge (lastActivity s) (c :: rest) ->
  exists s',
    sessions (call sm c) !! x = Some s'
    /\ id s' = id s /\ response s' = response s /\ createdAt s' = createdAt s
    /\ cadence x maxAge (lastActivity s') rest.
Proof.
  intros Hx Hc. destruct c as [res u tc ta|y now|y|m now]; simpl in *.
  - destruct Hc as [Hne Hc]. exists s.
    by rewrite lookup_insert_ne.
  - destruct (decide (y = x)) as [->|Hne].
    + destruct Hc as [_ Hc]. rewrite (getSession_found _ _ _ s) by done.
      simpl. exists (setLastActivity now s). by rewrite lookup_insert_eq.
    + exists s. split; [|done]. unfold getSession.
      destruct (sessions sm !! y); simpl; [|done].
      by rewrite lookup_insert_ne.
  - destruct Hc as [Hne Hc]. exists s.
    by rewrite sessions_deleteSession, lookup_delete_ne.
  - destruct Hc as (-> & (t & Ht & Hle) & Hc). exists s.
    split; [|done]. rewrite cleanupStale_lookup, Hx.
    pose proof (cadence_nextLookup _ _ _ _ _ Hc Ht).
    assert (stale now maxAge s = false) as ->; [|done].
    apply stale_false. lia.
Qed.

(** Along calls that keep the cadence of session [x], the session is in the
    registry after every one of them, and it is the same session. *)
Lemma cadence_keeps x maxAge cs :
  forall sm s,
    sessions sm !! x = Some s ->
    cadence x maxAge (lastActivity s) cs ->
    forall before after,
      cs = (before ++ after)%list ->
      exists s',
        sessions (calls before sm) !! x = Some s'
        /\ id s' = id s /\ response s' = response s
        /\ createdAt s' = createdAt s.
Proof.
  induction cs as [|c rest IH]; intros sm s Hx Hc before after Hsplit.
  - destruct before; [|done]. by exists s.
  - destruct before as [|c' before']; [by exists s|].
    injection Hsplit as -> ->.
    destruct (cadence_call x maxAge c' (before' ++ after) sm s Hx Hc)
      as (s1 & Hx1 & Hid & Hres & Hcr & Hc1).
    destruct (IH _ _ Hx1 Hc1 before' after eq_refl)
      as (s' & Hs' & Hid' & Hres' & Hcr').
    exists s'. unfold calls in *. simpl. split; [done|].
    repeat split; congruence.
Qed.

(** C8. A successful lookup of a session sets its [lastActivity] to the
    time of the lookup. Hence, while the calls of the session manager keep
    the cadence of session [x] (each lookup of [x] less than [maxAge] after
    the one before), the session is in the registry after every one of the
    calls, sweeps included, and it is the same session: same [id], same
    [createdAt], same stream. *)
Theorem lookups_in_cadence_keep_session_alive x maxAge sm s cs :
  sessions sm !! x = Some s ->
  cadence x maxAge (lastActivity s) cs ->
  (forall now,
     (getSession x now sm).1
     = Some {| id := id s; response := response s;
               createdAt := createdAt s; lastActivity := now |}
     /\ sessions (getSession x now sm).2 !! x = (getSession x now sm).1)
  /\ (forall before after,
        cs = (before ++ after)%list ->
        exists s',
          sessions (calls before sm) !! x = Some s'
          /\ id s' = id s /\ response s' = response s
          /\ createdAt s' = createdAt s).
Proof.
  intros Hx Hc. split.
  - intros now. rewrite (getSession_found _ _ _ s) by done. simpl.
    by rewrite lookup_insert_eq.
  - by apply (cadence_keeps x maxAge).
Qed.

(** ** Events as calls of the session manager *)

Lemma calls_app cs1 cs2 sm :
  calls (cs1 ++ cs2)%list sm = calls cs2 (calls cs1 sm).
Proof. apply foldl_app. Qed.

(** An event changes the session manager by the calls of [callsOf]. *)
Lemma step_calls srv ev :
  sessionManager (step srv ev) = calls (callsOf srv ev) (sessionManager srv).
Proof.
  destruct ev as [req rt|now|h]; simpl.
  - unfold handleRequest. rewrite configureCors_new.
    destruct (bool_decide (method req = "OPTIONS")); simpl; [done|].
    destruct (body req); simpl; [|done..].
    unfold mcpEndpoint.
    destruct (bool_decide (method req = "GET")); [done|].
    destruct (bool_decide (method req = "POST")).
    { unfold handlePostMcp.
      destruct (validateSessionIdHeader (extractSessionId req)); simpl;
        [|done].
      by destruct (getSession _ _ _) as [[?|] ?]. }
    destruct (bool_decide (method req = "DELETE")); simpl; [|done].
    unfold handleDeleteMcp. by destruct (truthy (extractSessionId req)).
  - done.
  - unfold closeStream. destruct (streams srv !! h) as [st|]; [|done].
    by destruct (closed st).
Qed.

Lemma run_calls evs srv :
  sessionManager (run evs srv)
  = calls (traceCalls evs srv) (sessionManager srv).
Proof.
  revert srv. induction evs as [|ev rest IH]; intros srv; [done|].
  simpl. rewrite calls_app, <- step_calls. apply IH.
Qed.

(** A session enters the registry by a creation under its identifier only. *)
Lemma call_enters sm c x :
  sessions sm !! x = None -> is_Some (sessions (call sm c) !! x) ->
  exists res tCreated tActive, c = CallCreate res x tCreated tActive.
Proof.
  intros Hno [s Hs]. destruct c as [res u tc ta|y now|y|m now]; simpl in Hs.
  - destruct (decide (u = x)) as [->|Hne]; [by eauto|].
    rewrite lookup_insert_ne in Hs by done. congruence.
  - unfold getSession in Hs. destruct (sessions sm !! y) eqn:Ey; simpl in Hs;
      [|congruence].
    destruct (decide (y = x)) as [->|Hne]; [congruence|].
    rewrite lookup_insert_ne in Hs by done. congruence.
  - rewrite sessions_deleteSession in Hs.
    apply lookup_delete_Some in Hs as [_ Hs]. congruence.
  - rewrite cleanupStale_lookup, Hno in Hs. done.
Qed.

(** A session leaves the registry by a deletion under its identifier or by
    a sweep that finds it stale, and in no other way. *)
Lemma call_leaves sm c x s :
  sessions sm !! x = Some s -> sessions (call sm c) !! x = None ->
  c = CallDelete x
  \/ exists maxAgeMs now,
       c = CallCleanup maxAgeMs now /\ now - lastActivity s > maxAgeMs.
Proof.
  intros Hx Hno. destruct c as [res u tc ta|y now|y|m now]; simpl in Hno.
  - destruct (decide (u = x)) as [->|Hne].
    + by rewrite lookup_insert_eq in Hno.
    + rewrite lookup_insert_ne in Hno by done. congruence.
  - unfold getSession in Hno.
    destruct (sessions sm !! y) eqn:Ey; simpl in Hno; [|congruence].
    destruct (decide (y = x)) as [->|Hne].
    + by rewrite lookup_insert_eq in Hno.
    + rewrite lookup_insert_ne in Hno by done. congruence.
  - rewrite sessions_deleteSession in Hno.
    destruct (decide (y = x)) as [->|Hne]; [by left|].
    rewrite lookup_delete_ne in Hno by done. congruence.
  - rewrite cleanupStale_lookup, Hx in Hno.
    destruct (stale now m s) eqn:Hst; [|done].
    right. exists m, now. split; [done|]. by apply stale_true.
Qed.

(** An event makes at most one call. *)
Lemma callsOf_length srv ev :
  callsOf srv ev = [] \/ exists c, callsOf srv ev = [c].
Proof.
  destruct ev as [req rt|now|h]; simpl.
  - repeat (case_bool_decide || case_match); eauto.
  - eauto.
  - repeat case_match; eauto.
Qed.

(** Which event makes which call. *)
Lemma callsOf_inv srv ev c :
  c ∈ callsOf srv ev ->
  match c with
  | CallCreate res u _ _ =>
      exists req rt, ev = EvRequest req rt /\ method req = "GET"
                     /\ u = uuid rt /\ res = length (streams srv)
  | CallGet y now =>
      exists req rt, ev = EvRequest req rt /\ method req = "POST"
                     /\ extractSessionId req = Some y /\ now = clock1 rt
  | CallDelete y =>
      (exists req rt, ev = EvRequest req rt /\ method req = "DELETE"
                      /\ extractSessionId req = Some y)
      \/ (exists h st, ev = EvClose h /\ streams srv !! h = Some st
                       /\ closed st = false /\ closeListener st = y)
  | CallCleanup maxAgeMs now =>
      ev = EvCleanup now /\ maxAgeMs = SESSION_CONFIG.MAX_AGE_MS
  end.
Proof.
  destruct ev as [req rt|now|h]; simpl.
  - destruct (bool_decide (method req = "OPTIONS")); [by intros ?%elem_of_nil|].
    destruct (body req); try by intros ?%elem_of_nil.
    case_bool_decide as Hget.
    { intros ->%list_elem_of_singleton. by exists req, rt. }
    case_bool_decide as Hpost.
    { destruct (extractSessionId req) as [y|] eqn:Hy; simpl;
        [|by intros ?%elem_of_nil].
      case_match; [|by intros ?%elem_of_nil].
      intros ->%list_elem_of_singleton. by exists req, rt. }
    case_bool_decide as Hdel; [|by intros ?%elem_of_nil].
    destruct (extractSessionId req) as [y|] eqn:Hy; simpl;
      [|by intros ?%elem_of_nil].
    case_match; [|by intros ?%elem_of_nil].
    intros ->%list_elem_of_singleton. left. by exists req, rt.
  - by intros ->%list_elem_of_singleton.
  - destruct (streams srv !! h) as [st|] eqn:Eh; [|by intros ?%elem_of_nil].
    destruct (closed st) eqn:Ecl; [by intros ?%elem_of_nil|].
    intros ->%list_elem_of_singleton. right. by exists h, st.
Qed.

(** On the server: a session enters the registry by a stream-establish
    request that is given its identifier. *)
Lemma session_enters_only_by_establish srv ev x :
  sessions (sessionManager srv) !! x = None ->
  is_Some (sessions (sessionManager (step srv ev)) !! x) ->
  exists req rt, ev = EvRequest req rt /\ method req = "GET" /\ uuid rt = x.
Proof.
  intros Hno Hin. rewrite step_calls in Hin.
  destruct (callsOf_length srv ev) as [E|[c E]]; rewrite E in Hin;
    simpl in Hin.
  - rewrite Hno in Hin. by destruct Hin.
  - destruct (call_enters _ _ _ Hno Hin) as (res & tc & ta & ->).
    destruct (callsOf_inv srv ev (CallCreate res x tc ta))
      as (req & rt & -> & Hm & -> & _); [rewrite E; by left|].
    by exists req, rt.
Qed.

(** On the server: a session leaves the registry by a terminate request
    that names it, by the [close] event of a stream whose listener captured
    its identifier, or by a sweep that finds it stale. *)
Lemma session_leaves_only_by_removal srv ev x s :
  sessions (sessionManager srv) !! x = Some s ->
  sessions (sessionManager (step srv ev)) !! x = None ->
  (exists req rt, ev = EvRequest req rt /\ method req = "DELETE"
                  /\ extractSessionId req = Some x)
  \/ (exists h st, ev = EvClose h /\ streams srv !! h = Some st
                   /\ closed st = false /\ closeListener st = x)
  \/ (exists now, ev = EvCleanup now
                  /\ now - lastActivity s > SESSION_CONFIG.MAX_AGE_MS).
Proof.
  intros Hx Hno. rewrite step_calls in Hno.
  destruct (callsOf_length srv ev) as [E|[c E]]; rewrite E in Hno;
    simpl in Hno; [congruence|].
  destruct (call_leaves _ _ _ s Hx Hno) as [->|(m & now & -> & Hst)].
  - destruct (callsOf_inv srv ev (CallDelete x)) as [?|?];
      [rewrite E; by left|by left|by right; left].
  - destruct (callsOf_inv srv ev (CallCleanup m now)) as [-> ->];
      [rewrite E; by left|].
    right; right. by exists now.
Qed.

(** On the server, with the configured maximal age: while the events keep
    the cadence of a session, the session stays in the registry. *)
Lemma server_cadence_keeps_session x srv s evs :
  sessions (sessionManager srv) !! x = Some s ->
  cadence x SESSION_CONFIG.MAX_AGE_MS (lastActivity s) (traceCalls evs srv) ->
  is_Some (sessions (sessionManager (run evs srv)) !! x).
Proof.
  intros Hx Hc. rewrite run_calls.
  destruct (cadence_keeps _ _ _ _ _ Hx Hc (traceCalls evs srv) [])
    as (s' & Hs' & _); [by rewrite app_nil_r|by eauto].
Qed.

(** ** Identifiers of established streams *)

Lemma handleRequest_establish req rt srv :
  isEstablish req ->
  announcedId (handleRequest req rt srv).1 = Some (uuid rt)
  /\ (handleRequest req rt srv).2
     = {| sessionManager :=
            {| sessions :=
                 <[uuid rt := {| id := uuid rt;
                                 response := length (streams srv);
                                 createdAt := clock1 rt;
                                 lastActivity := clock2 rt |}]>
                   (sessions (sessionManager srv)) |};
          streams := streams srv ++
                     [{| streamRes := (handleRequest req rt srv).1;
                         closeListener := uuid rt;
                         closed := false |}] |}.
Proof.
  intros [Hm [v Hb]].
  rewrite (handleRequest_GET _ _ _ v) by done. simpl. split; [|done].
  by vm_compute.
Qed.

Lemma establishAll_cons req rt rest srv :
  isEstablish req ->
  establishAll ((req, rt) :: rest) srv
  = (uuid rt :: (establishAll rest (handleRequest req rt srv).2).1,
     (establishAll rest (handleRequest req rt srv).2).2).
Proof.
  intros He. cbn [establishAll].
  destruct (handleRequest_establish req rt srv He) as [Hann _].
  destruct (handleRequest req rt srv) as [res srv1].
  cbn [fst snd] in *. rewrite Hann. by destruct (establishAll rest srv1).
Qed.

(** C7. When the generator never returns an identifier that the registry
    holds at the time of the call, [N] stream-establish requests return [N]
    pairwise distinct identifiers; afterwards each of them names a live
    session with a stream of its own, the registry has grown by [N]
    entries, and every session that was there before is unchanged: no
    creation has overwritten an entry. *)
Theorem established_identifiers_distinct reqs srv :
  Forall (fun p => isEstablish p.1) reqs ->
  freshIds reqs srv ->
  let ids := (establishAll reqs srv).1 in
  let srv' := (establishAll reqs srv).2 in
  NoDup ids
  /\ ids = (fun p => uuid p.2) <$> reqs
  /\ (forall i x,
        ids !! i = Some x ->
        exists s, sessions (sessionManager srv') !! x = Some s
                  /\ id s = x
                  /\ response s = (length (streams srv) + i)%nat)
  /\ (forall k s,
        sessions (sessionManager srv) !! k = Some s ->
        sessions (sessionManager srv') !! k = Some s)
  /\ size (sessions (sessionManager srv'))
     = (size (sessions (sessionManager srv)) + length reqs)%nat.
Proof.
  intros Hget. revert srv.
  induction Hget as [|[req rt] rest He _ IH]; intros srv Hfresh.
  - simpl. repeat split; [constructor|by intros [|?] ?|done|lia].
  - destruct Hfresh as [Hnew Hfresh]. simpl in He.
    destruct (handleRequest_establish req rt srv He) as [_ Hsrv].
    specialize (IH _ Hfresh).
    rewrite establishAll_cons by done.
    set (srv1 := (handleRequest req rt srv).2) in *.
    assert (Hold : forall k s, sessions (sessionManager srv) !! k = Some s ->
                               sessions (sessionManager srv1) !! k = Some s).
    { intros k s Hk. rewrite Hsrv. simpl.
      rewrite lookup_insert_ne; [done|]. intros <-. congruence. }
    assert (Hmine : sessions (sessionManager srv1) !! uuid rt
                    = Some {| id := uuid rt; response := length (streams srv);
                              createdAt := clock1 rt;
                              lastActivity := clock2 rt |}).
    { rewrite Hsrv. simpl. by rewrite lookup_insert_eq. }
    assert (Hlen : length (streams srv1) = S (length (streams srv))).
    { rewrite Hsrv. simpl. rewrite length_app. simpl. lia. }
    assert (Hsize1 : size (sessions (sessionManager srv1))
                     = S (size (sessions (sessionManager srv)))).
    { rewrite Hsrv. simpl. by rewrite map_size_insert_None. }
    clearbody srv1. clear Hsrv.
    destruct (establishAll rest srv1) as [ids srv2] eqn:E2.
    cbn [fst snd] in IH |- *.
    destruct IH as (Hnd & Hids & Hlive & Hkeep & Hsize).
    split; [|split; [|split; [|split]]].
    + constructor; [|done].
      intros Hin. apply list_elem_of_lookup in Hin as [i Hi].
      destruct (Hlive i _ Hi) as (s & Hs & _ & Hresp).
      apply Hkeep in Hmine. rewrite Hmine in Hs.
      injection Hs as <-. simpl in Hresp. lia.
    + by rewrite Hids.
    + intros [|i] x Hx; simpl in Hx.
      * injection Hx as <-. eexists. split; [by apply Hkeep|].
        split; [done|]. simpl. lia.
      * destruct (Hlive i x Hx) as (s & Hs & Hid & Hresp).
        exists s. split; [done|]. split; [done|]. lia.
    + intros k s Hk. by apply Hkeep, Hold.
    + rewrite Hsize, Hsize1. simpl. lia.
Qed.

(** ** Live sessions *)

(** In every state the server can reach, two entries of the registry are
    two sessions: they differ in their identifier and in their stream. *)
Lemma live_sessions_distinct srv k1 k2 s1 s2 :
  reachable srv ->
  sessions (sessionManager srv) !! k1 = Some s1 ->
  sessions (sessionManager srv) !! k2 = Some s2 ->
  k1 <> k2 ->
  id s1 <> id s2 /\ response s1 <> response s2.
Proof.
  intros Hr%reachable_consistent H1 H2 Hne.
  destruct (Hr _ _ H1) as (Hid1 & _ & st1 & Est1 & _ & Hcl1).
  destruct (Hr _ _ H2) as (Hid2 & _ & st2 & Est2 & _ & Hcl2).
  split; [congruence|].
  intros E. rewrite E in Est1. congruence.
Qed.

(** ** The theorems at the sample inputs *)

Lemma sampleServer_reachable : reachable sampleServer.
Proof.
  apply (reachable_step initServer (EvRequest establishRequest sampleRuntime)).
  - apply reachable_init.
  - reflexivity.
Qed.

Lemma message_accepted_iff_session_present_witness :
  extractSessionId (messageRequest (Some sampleId)) = Some sampleId
  /\ ((accepted (handleRequest (messageRequest (Some sampleId))
                   otherRuntime sampleServer).1
       <-> is_Some (sessions (sessionManager sampleServer) !! sampleId))
      /\ (sampleId <> "" ->
          sessions (sessionManager sampleServer) !! sampleId = None ->
          statusCode (handleRequest (messageRequest (Some sampleId))
                        otherRuntime sampleServer).1 = 401
          /\ jsonBody (handleRequest (messageRequest (Some sampleId))
                         otherRuntime sampleServer).1
             = Some (envelope (-32001)
                       "Unauthorized: Invalid or expired session ID"))).
Proof.
  split; [reflexivity|].
  apply (message_accepted_iff_session_present sampleServer
           (messageRequest (Some sampleId)) otherRuntime sampleBody sampleId
           sampleServer_reachable);
    reflexivity.
Defined.

Lemma message_without_identifier_rejected_witness :
  missingId (messageRequest (Some ""))
  /\ handleRequest (messageRequest (Some "")) otherRuntime sampleServer
     = (missingIdResponse, sampleServer)
  /\ statusCode missingIdResponse = 400
  /\ jsonBody missingIdResponse
     = Some (envelope (-32600) "Bad Request: Missing Mcp-Session-Id header").
Proof.
  assert (missingId (messageRequest (Some ""))) as Hm
    by (right; reflexivity).
  split; [exact Hm|].
  apply (message_without_identifier_rejected (messageRequest (Some ""))
           otherRuntime sampleServer sampleBody eq_refl eq_refl Hm).
Defined.

Lemma failure_envelope_shape_witness :
  unknownId (messageRequest (Some otherId)) sampleServer
  /\ exists (payload : JsVal) (code : Z) (message : string),
       jsonBody (handleRequest (messageRequest (Some otherId))
                   otherRuntime sampleServer).1 = Some payload
       /\ payload = JObj [("jsonrpc", JStr "2.0");
                          ("error", JObj [("code", JNum code);
                                          ("message", JStr message)])]
       /\ keys payload = ["jsonrpc"; "error"]
       /\ prop "jsonrpc" payload = JStr "2.0"
       /\ keys (prop "error" payload) = ["code"; "message"]
       /\ prop "code" (prop "error" payload) = JNum code
       /\ prop "message" (prop "error" payload) = JStr message.
Proof.
  assert (unknownId (messageRequest (Some otherId)) sampleServer) as Hu.
  { exists otherId. split; [reflexivity|]. split; [discriminate|].
    vm_compute. reflexivity. }
  split; [exact Hu|].
  apply (failure_envelope_shape (messageRequest (Some otherId)) otherRuntime
           sampleServer sampleBody eq_refl eq_refl (or_intror Hu)).
Defined.

Lemma message_frame_witness :
  method (messageRequest (Some sampleId)) = "POST"
  /\ streams (handleRequest (messageRequest (Some sampleId))
                otherRuntime sampleServer).2
     = streams sampleServer
  /\ lastActivity <$> sessions (sessionManager
        (handleRequest (messageRequest (Some sampleId))
           otherRuntime sampleServer).2) !! sampleId = Some 2000.
Proof.
  split; [reflexivity|].
  pose proof (message_frame (messageRequest (Some sampleId)) otherRuntime
                sampleServer eq_refl) as (Hstreams & _ & _).
  split; [exact Hstreams|].
  vm_compute. reflexivity.
Defined.

Lemma malformed_body_rejected_first_witness :
  body malformedRequest
  = BodySyntaxError "Unexpected token } in JSON at position 1"
  /\ handleRequest malformedRequest otherRuntime sampleServer
     = (malformedResponse, sampleServer).
Proof.
  split; [reflexivity|].
  apply (malformed_body_rejected_first malformedRequest otherRuntime
           sampleServer _ eq_refl eq_refl).
Defined.

Lemma terminate_idempotent_witness :
  method (terminateRequest sampleId) = "DELETE"
  /\ (handleRequest (terminateRequest sampleId) otherRuntime sampleServer).1
     = noContentResponse
  /\ (handleRequest (terminateRequest sampleId) sampleRuntime
        (handleRequest (terminateRequest sampleId) otherRuntime
           sampleServer).2).1
     = noContentResponse.
Proof.
  split; [reflexivity|].
  pose proof (terminate_idempotent (terminateRequest sampleId) otherRuntime
                sampleRuntime sampleServer (JObj []) eq_refl eq_refl)
    as (H1 & H2 & _).
  split; [exact H1|exact H2].
Defined.

Lemma close_removes_session_and_entries_have_open_streams_witness :
  reachable sampleServer
  /\ sessions (sessionManager (closeStream 0 sampleServer)) !! sampleId = None.
Proof.
  split; [exact sampleServer_reachable|].
  pose proof (close_removes_session_and_entries_have_open_streams
                sampleServer sampleServer_reachable) as (Hclose & _ & _).
  apply (Hclose sampleId
           {| id := sampleId; response := 0;
              createdAt := 1000; lastActivity := 1000 |}).
  vm_compute. reflexivity.
Defined.

Lemma established_identifiers_distinct_witness :
  Forall (fun p => isEstablish p.1) sampleEstablishes
  /\ freshIds sampleEstablishes initServer
  /\ NoDup (establishAll sampleEstablishes initServer).1
  /\ (establishAll sampleEstablishes initServer).1 = [sampleId; otherId].
Proof.
  assert (Forall (fun p : Request * Runtime => isEstablish p.1)
            sampleEstablishes) as Hg.
  { repeat constructor; by exists (JObj []). }
  assert (freshIds sampleEstablishes initServer) as Hf.
  { simpl. split; [reflexivity|]. split; [vm_compute; reflexivity|exact I]. }
  split; [exact Hg|]. split; [exact Hf|].
  pose proof (established_identifiers_distinct sampleEstablishes
                initServer Hg Hf) as (Hnd & Hids & _).
  split; [exact Hnd|exact Hids].
Defined.

Lemma lookups_in_cadence_keep_session_alive_witness :
  cadence sampleId 3600000 1000 sampleCalls
  /\ exists s',
       sessions (calls sampleCalls (sessionManager sampleServer)) !! sampleId
       = Some s'
       /\ id s' = sampleId /\ response s' = 0%nat /\ createdAt s' = 1000.
Proof.
  assert (cadence sampleId 3600000 1000 sampleCalls) as Hc.
  { simpl. repeat split;
      try lia; try discriminate;
      try (eexists; split; [reflexivity|lia]). }
  split; [exact Hc|].
  pose proof (lookups_in_cadence_keep_session_alive sampleId 3600000
                (sessionManager sampleServer)
                {| id := sampleId; response := 0;
                   createdAt := 1000; lastActivity := 1000 |}
                sampleCalls) as H.
  destruct H as [_ Hkeep]; [vm_compute; reflexivity|exact Hc|].
  apply (Hkeep sampleCalls []). reflexivity.
Defined.

(** * Further properties of the transport *)

(** ** Cross-origin headers, preflight and unsupported verbs *)

(** Whatever the request and whatever the parser made of its body, the
    response starts with the four cross-origin headers of [CORS_CONFIG]. *)
Theorem every_response_has_cors_headers req rt srv :
  take 4 (resHeaders (handleRequest req rt srv).1)
  = [("Access-Control-Allow-Origin", CORS_CONFIG.ALLOW_ORIGIN);
     ("Access-Control-Allow-Methods", CORS_CONFIG.ALLOW_METHODS);
     ("Access-Control-Allow-Headers", CORS_CONFIG.ALLOW_HEADERS);
     ("Access-Control-Expose-Headers", CORS_CONFIG.EXPOSE_HEADERS)].
Proof.
  unfold handleRequest. rewrite configureCors_new.
  destruct (bool_decide (method req = "OPTIONS")); simpl; [done|].
  destruct (body req) as [v|m|status]; simpl; [|done|by case_bool_decide].
  unfold mcpEndpoint.
  destruct (bool_decide (method req = "GET")); [done|].
  destruct (bool_decide (method req = "POST")).
  { unfold handlePostMcp.
    destruct (negb (validateSessionIdHeader (extractSessionId req)));
      simpl; [done|].
    by destruct (getSession _ _ _) as [[?|] ?]. }
  by destruct (bool_decide (method req = "DELETE")).
Qed.


(** A verb other than GET, POST, DELETE and OPTIONS gets status 405 and the
    list of the three verbs of the endpoint, and leaves the server as it
    was. *)
Theorem other_verbs_are_not_allowed req rt srv v :
  body req = BodyParsed v ->
  method req <> "OPTIONS" -> method req <> "GET" ->
  method req <> "POST" -> method req <> "DELETE" ->
  let res := (handleRequest req rt srv).1 in
  (handleRequest req rt srv).2 = srv
  /\ statusCode res = 405
  /\ jsonBody res
     = Some (JObj [("error", JStr "Method Not Allowed");
                   ("allowed", JArr [JStr "GET"; JStr "POST"; JStr "DELETE"])]).
Proof.
  intros Hb Ho Hg Hp Hd. unfold handleRequest.
  rewrite configureCors_new, Hb, bool_decide_eq_false_2 by done. simpl.
  unfold mcpEndpoint. by rewrite !bool_decide_eq_false_2 by done.
Qed.

Lemma mcpEndpoint_ends_other_verbs req res rt srv :
  method req <> "GET" -> ended (mcpEndpoint req res rt srv).1 = true.
Proof.
  intros Hg. unfold mcpEndpoint. rewrite bool_decide_eq_false_2 by done.
  destruct (bool_decide (method req = "POST")).
  - unfold handlePostMcp.
    destruct (negb (validateSessionIdHeader (extractSessionId req)));
      simpl; [done|].
    by destruct (getSession _ _ _) as [[?|] ?].
  - by destruct (bool_decide (method req = "DELETE")).
Qed.

(** The chain ends every response but one: only the response of a
    stream-establish request is left open. *)
Theorem only_the_stream_stays_open req rt srv :
  ended (handleRequest req rt srv).1 = false <-> isEstablish req.
Proof.
  unfold handleRequest, isEstablish. rewrite configureCors_new.
  destruct (bool_decide (method req = "OPTIONS")) eqn:Ho; simpl.
  { apply bool_decide_eq_true in Ho. split; [done|].
    intros [Hm _]. rewrite Hm in Ho. done. }
  destruct (body req) as [v|m|status]; simpl.
  - destruct (decide (method req = "GET")) as [Hg|Hg].
    + split; [by eauto|]. intros _. unfold mcpEndpoint.
      by rewrite bool_decide_eq_true_2.
    + rewrite mcpEndpoint_ends_other_verbs by done.
      split; [done|]. by intros [? _].
  - split; [done|]. by intros [_ [? ?]].
  - split; [|by intros [_ [? ?]]].
    by destruct (bool_decide (400 <= status < 600)).
Qed.

(** ** Sequences of requests *)


(** After a terminate request that names a session, a message request with
    the same identifier is answered 401 with the code -32001, as for an
    identifier that was never issued. *)
Theorem message_after_terminate_is_unauthorized del msg rt rt' srv v v' x :
  method del = "DELETE" -> body del = BodyParsed v ->
  method msg = "POST" -> body msg = BodyParsed v' ->
  extractSessionId del = Some x -> extractSessionId msg = Some x ->
  x <> "" ->
  let srv1 := (handleRequest del rt srv).2 in
  statusCode (handleRequest msg rt' srv1).1 = 401
  /\ jsonBody (handleRequest msg rt' srv1).1
     = Some (envelope (-32001) "Unauthorized: Invalid or expired session ID")
  /\ (handleRequest msg rt' srv1).2 = srv1.
Proof.
  intros Hmd Hbd Hmm Hbm Hxd Hxm Hne. simpl.
  rewrite (handleRequest_DELETE del rt srv v) by done.
  rewrite handleDeleteMcp_sessions, Hxd. simpl.
  rewrite decide_False by done.
  rewrite (handleRequest_POST msg _ _ v') by done.
  rewrite (handlePostMcp_unknown _ _ _ _ x); [done..|].
  simpl. rewrite sessions_deleteSession. apply lookup_delete_eq.
Qed.

(** A session that has been inactive for more than [MAX_AGE_MS] when the
    cleanup timer fires is gone afterwards: a message request with its
    identifier gets the same response as on a server that never had the
    session, status 401 with the code -32001. *)
Theorem message_after_expiry_is_unauthorized msg rt now srv v x s :
  method msg = "POST" -> body msg = BodyParsed v ->
  extractSessionId msg = Some x -> x <> "" ->
  sessions (sessionManager srv) !! x = Some s ->
  now - lastActivity s > SESSION_CONFIG.MAX_AGE_MS ->
  let res := (handleRequest msg rt (cleanupTick now srv)).1 in
  statusCode res = 401
  /\ jsonBody res
     = Some (envelope (-32001) "Unauthorized: Invalid or expired session ID")
  /\ res = (handleRequest msg rt initServer).1.
Proof.
  intros Hm Hb Hx Hne Hs Hold. simpl.
  rewrite !(handleRequest_POST _ _ _ v) by done.
  rewrite !(handlePostMcp_unknown _ _ _ _ x); [done|done..| |done|done|].
  - simpl. apply lookup_empty.
  - simpl. rewrite cleanupStale_lookup, Hs.
    by rewrite (proj2 (stale_true _ _ _) Hold).
Qed.

(** ** More on the session manager *)

Lemma SessionManager_eq sm1 sm2 :
  sessions sm1 = sessions sm2 -> sm1 = sm2.
Proof. destruct sm1, sm2. simpl. by intros ->. Qed.

(** [validateSession] tells whether a message request with that identifier
    would be accepted; unlike the lookup of the message request it is a pure
    test of membership. *)
Theorem validateSession_tells_acceptance srv msg rt v x :
  reachable srv ->
  method msg = "POST" -> body msg = BodyParsed v ->
  extractSessionId msg = Some x ->
  (validateSession x (sessionManager srv) = true
   <-> accepted (handleRequest msg rt srv).1)
  /\ (validateSession x (sessionManager srv) = true
      <-> is_Some (getSession x (clock1 rt) (sessionManager srv)).1).
Proof.
  intros Hr Hm Hb Hx. unfold validateSession.
  rewrite bool_decide_eq_true.
  rewrite (handleRequest_POST _ _ _ v) by done.
  destruct (sessions (sessionManager srv) !! x) as [s|] eqn:Es.
  - assert (x <> "") as Hne.
    { intros ->. rewrite reachable_no_empty_id in Es; done. }
    rewrite (handlePostMcp_known _ _ _ _ x s) by done.
    rewrite (getSession_found _ _ _ s) by done. simpl.
    split; (split; [intros _|by eauto]); [done|by eauto].
  - rewrite getSession_missing by done. simpl.
    split; (split; [by intros [? ?]|]); [|by intros [? ?]].
    destruct (decide (x = "")) as [->|Hne].
    + rewrite handlePostMcp_missing by (by right). by intros [? _].
    + rewrite (handlePostMcp_unknown _ _ _ _ x) by done. by intros [? _].
Qed.

(** [createJsonRpcError] always gives [jsonrpc], [error.code] and
    [error.message], and it echoes the request identifier: the field [id] is
    there exactly when an identifier other than [undefined] is given, [null]
    included, and reading it back gives the identifier. *)
Theorem createJsonRpcError_echoes_id code message rid :
  let e := createJsonRpcError code message rid in
  prop "jsonrpc" e = JStr "2.0"
  /\ prop "code" (prop "error" e) = JNum code
  /\ prop "message" (prop "error" e) = JStr message
  /\ keys (prop "error" e) = ["code"; "message"]
  /\ prop "id" e = rid
  /\ keys e = match rid with
              | JUndefined => ["jsonrpc"; "error"]
              | _ => ["jsonrpc"; "error"; "id"]
              end.
Proof.
  simpl. repeat (split; [done|]).
  unfold createJsonRpcError. by destruct rid.
Qed.

(** A session created under a fresh identifier is found by the next lookup,
    with the time of the lookup as its activity time, and deleting it gives
    back the manager as it was before. *)
Theorem create_lookup_delete res uuid tCreated tActive now sm :
  sessions sm !! uuid = None ->
  let sm1 := (createSession res uuid tCreated tActive sm).2 in
  (createSession res uuid tCreated tActive sm).1 = uuid
  /\ (getSession uuid now sm1).1
     = Some {| id := uuid; response := res;
               createdAt := tCreated; lastActivity := now |}
  /\ getActiveCount sm1 = getActiveCount sm + 1
  /\ deleteSession uuid sm1 = sm.
Proof.
  intros Hfresh. simpl. split; [done|]. split; [|split].
  - erewrite getSession_found; [|apply lookup_insert_eq]. done.
  - unfold getActiveCount. simpl.
    rewrite map_size_insert_None by done. lia.
  - apply SessionManager_eq. rewrite sessions_deleteSession. simpl.
    rewrite delete_insert_eq. by apply delete_id.
Qed.

(** Two sweeps with the same maximal age, the second no earlier than the
    first, leave the registry that the second alone would leave; a sweep
    repeated at the same time removes nothing and prints no count. *)
Theorem cleanupStale_composes maxAgeMs now1 now2 sm :
  now1 <= now2 ->
  manager (cleanupStale maxAgeMs now2 (manager (cleanupStale maxAgeMs now1 sm)))
  = manager (cleanupStale maxAgeMs now2 sm)
  /\ printedCount
       (cleanupStale maxAgeMs now1 (manager (cleanupStale maxAgeMs now1 sm)))
     = None.
Proof.
  intros Hle. split.
  - apply SessionManager_eq, map_eq. intros k.
    rewrite !cleanupStale_lookup.
    destruct (sessions sm !! k) as [s|]; [|done].
    destruct (stale now1 maxAgeMs s) eqn:H1; [|done].
    apply stale_true in H1.
    by rewrite (proj2 (stale_true now2 maxAgeMs s)) by lia.
  - rewrite cleanupStale_printedCount.
    assert (sessions (manager (cleanupStale maxAgeMs now1
                                 (manager (cleanupStale maxAgeMs now1 sm))))
            = sessions (manager (cleanupStale maxAgeMs now1 sm))) as ->.
    { apply map_eq. intros k. rewrite !cleanupStale_lookup.
      destruct (sessions sm !! k) as [s|]; [|done].
      by destruct (stale now1 maxAgeMs s) eqn:H1; [|rewrite H1]. }
    simpl. rewrite bool_decide_eq_false_2; [done|lia].
Qed.

(** ** More on streams *)

Lemma handleRequest_establish_open req rt srv :
  isEstablish req -> ended (handleRequest req rt srv).1 = false.
Proof.
  intros [Hm [v Hb]]. by rewrite (handleRequest_GET _ _ _ v).
Qed.

(** The listener of the [close] event deletes by identifier, not by stream.
    If a stream-establish is given an identifier that the registry holds,
    the new session replaces the old one under that identifier, the stream
    of the old one stays open without a session, and when that old stream
    closes, the new session is deleted although its own stream is open. *)
Theorem reissued_identifier_dies_with_the_first_stream req rt srv s :
  consistent srv -> isEstablish req ->
  sessions (sessionManager srv) !! uuid rt = Some s ->
  let srv1 := (handleRequest req rt srv).2 in
  let srv2 := closeStream (response s) srv1 in
  sessions (sessionManager srv1) !! uuid rt
  = Some {| id := uuid rt; response := length (streams srv);
            createdAt := clock1 rt; lastActivity := clock2 rt |}
  /\ getActiveCount (sessionManager srv1) = getActiveCount (sessionManager srv)
  /\ (isOpen <$> streams srv1 !! response s) = Some true
  /\ response s <> length (streams srv)
  /\ sessions (sessionManager srv2) !! uuid rt = None
  /\ (isOpen <$> streams srv2 !! length (streams srv)) = Some true.
Proof.
  intros Hc He Hs.
  destruct (handleRequest_establish req rt srv He) as [_ Hsrv].
  destruct (Hc _ _ Hs) as (_ & _ & st & Est & Hopen & Hcl).
  pose proof (lookup_lt_Some _ _ _ Est) as Hlt.
  assert (ended (handleRequest req rt srv).1 = false) as Hend
    by by apply handleRequest_establish_open.
  simpl. rewrite Hsrv. clear Hsrv. simpl.
  set (res := (handleRequest req rt srv).1) in *. clearbody res.
  split; [by rewrite lookup_insert_eq|].
  split.
  { unfold getActiveCount. simpl.
    by rewrite map_size_insert_Some by eauto. }
  split; [by rewrite lookup_app_l, Est; simpl; rewrite ?Hopen|].
  split; [lia|].
  unfold closeStream. simpl. rewrite lookup_app_l, Est by done.
  assert (closed st = false) as Hclosed.
  { unfold isOpen in Hopen. by destruct (closed st). }
  rewrite Hclosed. simpl. split.
  - rewrite sessions_deleteSession, Hcl. simpl. apply lookup_delete_eq.
  - rewrite list_lookup_insert_ne by lia.
    rewrite list_lookup_middle by done. simpl.
    unfold isOpen. simpl. by rewrite Hend.
Qed.

(** ** Sessions and open streams *)

Lemma filter_all {A} (P : A -> Prop) `{!forall x, Decision (P x)}
    (l : list A) :
  (forall x, x ∈ l -> P x) -> filter P l = l.
Proof.
  induction l as [|a l IH]; intros Hall; [done|].
  rewrite filter_cons_True by (apply Hall; left).
  f_equal. apply IH. intros x Hx. apply Hall. by right.
Qed.

Lemma length_without n (l : list nat) :
  NoDup l -> (length l <= S (length (filter (fun i => i <> n) l)))%nat.
Proof.
  induction 1 as [|a l Ha Hnd IH]; simpl; [lia|].
  destruct (decide (a = n)) as [->|Hne].
  - rewrite filter_cons_False by (by intros ?).
    assert (filter (fun i => i <> n) l = l) as ->; [|lia].
    apply filter_all. by intros i Hi ->.
  - rewrite filter_cons_True by done. simpl. lia.
Qed.

(** Distinct handles of open streams are no more than the open streams. *)
Lemma handles_le_open (sts : list Stream) :
  forall l : list nat,
    NoDup l ->
    (forall i, i ∈ l -> exists st, sts !! i = Some st /\ isOpen st = true) ->
    (length l <= length (filter (fun st => isOpen st = true) sts))%nat.
Proof.
  induction sts as [|st sts IH] using rev_ind; intros l Hnd Hopen.
  - destruct l as [|i l]; [done|].
    destruct (Hopen i) as (? & ? & _); [by left|done].
  - set (n := length sts).
    set (l' := filter (fun i => i <> n) l).
    assert (length l' <= length (filter (fun st => isOpen st = true) sts))%nat
      as Hl'.
    { apply IH; [by apply NoDup_filter|].
      intros i [Hi Hin]%list_elem_of_filter.
      destruct (Hopen i Hin) as (st' & Est' & Ho). exists st'. split; [|done].
      pose proof (lookup_lt_Some _ _ _ Est') as Hlt.
      rewrite length_app in Hlt. simpl in Hlt.
      rewrite lookup_app_l in Est' by (unfold n in Hi; lia). done. }
    rewrite filter_app, length_app.
    destruct (decide (n ∈ l)) as [Hin|Hnin].
    + destruct (Hopen n Hin) as (st' & Est' & Ho).
      rewrite list_lookup_middle in Est' by done. injection Est' as <-.
      rewrite filter_cons_True by done. simpl.
      pose proof (length_without n l Hnd) as Hw. fold l' in Hw. lia.
    + assert (l' = l) as El by (apply filter_all; by intros i Hi ->).
      rewrite El in Hl'. lia.
Qed.

Lemma consistent_count srv :
  consistent srv -> (size (sessions (sessionManager srv)) <= openCount srv)%nat.
Proof.
  intros Hc. unfold openCount.
  set (entries := map_to_list (sessions (sessionManager srv))).
  assert (size (sessions (sessionManager srv))
          = length ((fun e : string * Session => response e.2) <$> entries))
    as ->.
  { rewrite length_fmap. unfold entries. by rewrite length_map_to_list. }
  apply handles_le_open.
  - apply NoDup_fmap_2_strong; [|apply NoDup_map_to_list].
    intros [k1 s1] [k2 s2] H1%elem_of_map_to_list H2%elem_of_map_to_list E.
    simpl in E.
    destruct (Hc _ _ H1) as (_ & _ & st1 & Est1 & _ & Hcl1).
    destruct (Hc _ _ H2) as (_ & _ & st2 & Est2 & _ & Hcl2).
    rewrite E in Est1. assert (k1 = k2) as -> by congruence. congruence.
  - intros i ([k s] & -> & Hin%elem_of_map_to_list)%list_elem_of_fmap.
    destruct (Hc _ _ Hin) as (_ & _ & st & Est & Ho & _). by exists st.
Qed.

(** The health route reports the size of the registry, and on a server
    reached from its start this number never exceeds the number of open
    streams: no session is counted whose stream has been closed. *)
Theorem health_counts_sessions_with_open_streams isoNow srv res :
  reachable srv ->
  let report := healthHandler isoNow (sessionManager srv) res in
  exists payload n,
    jsonBody report = Some payload
    /\ statusCode report = statusCode res
    /\ prop "status" payload = JStr "healthy"
    /\ prop "timestamp" payload = JStr isoNow
    /\ prop "activeSessions" payload = JNum n
    /\ n = getActiveCount (sessionManager srv)
    /\ 0 <= n <= Z.of_nat (openCount srv).
Proof.
  intros Hr%reachable_consistent%consistent_count.
  eexists _, (getActiveCount (sessionManager srv)).
  split; [reflexivity|]. repeat (split; [reflexivity|]).
  unfold getActiveCount. split; [apply Nat2Z.is_nonneg|].
  apply Nat2Z.inj_le. exact Hr.
Qed.

(** ** Time stamps *)













(** ** The earlier transport *)




(** ** The configuration of the transport *)

Lemma trimStart_suffix s : exists ws, s = (ws ++ trimStart s)%list.
Proof.
  induction s as [|c s [ws IH]]; [by exists []|]. simpl.
  destruct (isWhiteSpace c).
  - exists (c :: ws). simpl. by f_equal.
  - by exists [].
Qed.

Lemma trimStart_head s c :
  head (trimStart s) = Some c -> isWhiteSpace c = false.
Proof.
  induction s as [|d s IH]; [done|]. simpl.
  destruct (isWhiteSpace d) eqn:Hd; [done|]. simpl. by intros [= <-].
Qed.

Lemma trimStart_id s :
  (forall c, head s = Some c -> isWhiteSpace c = false) -> trimStart s = s.
Proof.
  destruct s as [|d s]; [done|]. intros H. simpl.
  by rewrite (H d eq_refl).
Qed.

Lemma trimStart_elem c s : c ∈ trimStart s -> c ∈ s.
Proof.
  destruct (trimStart_suffix s) as [ws E]. intros Hc.
  rewrite E. apply elem_of_app. by right.
Qed.

Lemma trim_elem c s : c ∈ trim s -> c ∈ s.
Proof.
  unfold trim. rewrite elem_of_reverse.
  intros H%trimStart_elem. rewrite elem_of_reverse in H.
  by apply trimStart_elem.
Qed.

Lemma trim_trimmed s : trimmed (trim s).
Proof.
  unfold trimmed, trim. split; intros c.
  - rewrite head_reverse.
    destruct (trimStart_suffix (reverse (trimStart s))) as [ws E].
    intros Hlast.
    assert (last (reverse (trimStart s)) = Some c) as Hl.
    { rewrite E. apply last_app_Some. by left. }
    rewrite last_reverse in Hl. by eapply trimStart_head.
  - rewrite last_reverse. apply trimStart_head.
Qed.

Lemma trim_id h : trimmed h -> trim h = h.
Proof.
  intros [Hh Hl]. unfold trim.
  rewrite (trimStart_id h) by done.
  rewrite trimStart_id; [apply reverse_involutive|].
  intros c. rewrite head_reverse. apply Hl.
Qed.

Lemma split_nonempty sep s : split sep s <> [].
Proof.
  destruct s as [|c s]; [done|]. simpl.
  case_bool_decide; [done|]. by destruct (split sep s).
Qed.

Lemma split_pieces sep s p : p ∈ split sep s -> sep ∉ p.
Proof.
  revert p. induction s as [|c s IH]; intros p; simpl.
  - intros ->%list_elem_of_singleton. apply not_elem_of_nil.
  - case_bool_decide as Hc.
    + intros [->|Hp]%elem_of_cons; [apply not_elem_of_nil|by apply IH].
    + destruct (split sep s) as [|q qs] eqn:E;
        [by destruct (split_nonempty sep s)|].
      intros [->|Hp]%elem_of_cons.
      * intros [->|Hq]%elem_of_cons; [done|].
        revert Hq. apply IH. by left.
      * apply IH. by right.
Qed.

Lemma split_one sep p : sep ∉ p -> split sep p = [p].
Proof.
  induction p as [|c p IH]; [done|]. intros Hp. simpl.
  rewrite bool_decide_eq_false_2 by (intros ->; apply Hp; by left).
  rewrite IH; [done|]. intros ?. apply Hp. by right.
Qed.

Lemma split_app sep p t :
  sep ∉ p -> split sep (p ++ sep :: t)%list = p :: split sep t.
Proof.
  induction p as [|c p IH]; intros Hp; simpl.
  - by rewrite bool_decide_eq_true_2.
  - rewrite bool_decide_eq_false_2 by (intros ->; apply Hp; by left).
    rewrite IH; [done|]. intros ?. apply Hp. by right.
Qed.

Lemma split_join sep pieces :
  pieces <> [] -> (forall p, p ∈ pieces -> sep ∉ p) ->
  split sep (join sep pieces) = pieces.
Proof.
  induction pieces as [|p rest IH]; [done|]. intros _ Hall.
  destruct rest as [|q rest].
  - simpl. apply split_one. apply Hall. by left.
  - change (join sep (p :: q :: rest))
      with (p ++ sep :: join sep (q :: rest))%list.
    rewrite split_app by (apply Hall; by left).
    f_equal. apply IH; [done|]. intros p' Hp'. apply Hall. by right.
Qed.

Lemma commaList_entries v h :
  h ∈ commaList v -> h <> [] /\ (comma ∉ h) /\ trimmed h.
Proof.
  unfold commaList. destruct (isSet v); [|by intros ?%elem_of_nil].
  intros [Hne Hin]%list_elem_of_filter.
  apply list_elem_of_fmap in Hin as (p & -> & Hp).
  split; [done|]. split; [|apply trim_trimmed].
  intros Hc%trim_elem. by apply (split_pieces comma (default [] v) p).
Qed.

Lemma commaList_set s :
  s <> [] ->
  commaList (Some s) = filter (fun h => h <> []) (trim <$> split comma s).
Proof. by destruct s. Qed.

Lemma join_nonempty sep h rest : h <> [] -> join sep (h :: rest) <> [].
Proof. destruct h; [done|]. by destruct rest. Qed.

Lemma commaList_join v :
  commaList (Some (join comma (commaList v))) = commaList v.
Proof.
  set (l := commaList v).
  assert (Hl : forall h, h ∈ l -> h <> [] /\ (comma ∉ h) /\ trimmed h)
    by apply commaList_entries.
  clearbody l. destruct l as [|h rest]; [done|].
  rewrite commaList_set by (apply join_nonempty, Hl; by left).
  rewrite split_join; [|done|intros p Hp; by apply Hl].
  assert ((trim <$> h :: rest) = h :: rest) as ->.
  { apply list_eq. intros i. rewrite list_lookup_fmap.
    destruct ((h :: rest) !! i) as [p|] eqn:Ep; [|done]. simpl. f_equal.
    apply trim_id. apply Hl. by eapply list_elem_of_lookup_2. }
  apply filter_all. intros p Hp. by apply Hl.
Qed.

(** Every entry of [allowedHosts] and of [allowedOrigins] is a non-empty
    string without a comma and without white space at its ends, whatever
    the variables hold; blanks between commas are dropped. *)
Theorem allowed_lists_hold_clean_entries {Num} (parseInt10 : list N -> Num)
    env h :
  let config := getTransportConfig parseInt10 env in
  h ∈ allowedHosts config \/ h ∈ allowedOrigins config ->
  h <> [] /\ (comma ∉ h) /\ trimmed h.
Proof. simpl. intros [H|H]; by apply commaList_entries in H. Qed.

(** The two lists are in normal form: writing them back into the
    environment, joined by commas, gives the same configuration again. *)
Theorem allowed_lists_round_trip {Num} (parseInt10 : list N -> Num) env :
  let config := getTransportConfig parseInt10 env in
  getTransportConfig parseInt10
    (<["MCP_ALLOWED_HOSTS" := join comma (allowedHosts config)]>
       (<["MCP_ALLOWED_ORIGINS" := join comma (allowedOrigins config)]> env))
  = config.
Proof.
  simpl. unfold getTransportConfig.
  rewrite !lookup_insert_eq.
  rewrite !(lookup_insert_ne _ "MCP_ALLOWED_HOSTS") by done.
  rewrite !lookup_insert_eq.
  rewrite !(lookup_insert_ne _ "MCP_ALLOWED_ORIGINS") by done.
  by rewrite !commaList_join.
Qed.

(** A variable that is set to the empty string counts as a variable that is
    not set, for every setting: removing the empty variables from the
    environment does not change the configuration. *)
Theorem empty_variables_count_as_unset {Num} (parseInt10 : list N -> Num)
    env :
  getTransportConfig parseInt10 (filter (fun kv => kv.2 <> []) env)
  = getTransportConfig parseInt10 env.
Proof.
  assert (Hset : forall k,
            isSet (filter (fun kv : string * list N => kv.2 <> []) env !! k)
            = isSet (env !! k)
            /\ (isSet (env !! k) = true ->
                filter (fun kv : string * list N => kv.2 <> []) env !! k
                = env !! k)).
  { intros k. destruct (env !! k) as [[|c v]|] eqn:Ek; simpl.
    - rewrite (proj2 (map_lookup_filter_None _ _ _)); [done|].
      right. intros v. rewrite Ek. by intros [= <-] ?.
    - by rewrite (map_lookup_filter_Some_2 _ _ _ (c :: v)).
    - rewrite (proj2 (map_lookup_filter_None _ _ _)); [done|]. by left. }
  assert (Hor : forall k d,
            orElse (filter (fun kv : string * list N => kv.2 <> []) env !! k) d
            = orElse (env !! k) d).
  { intros k d. unfold orElse. destruct (Hset k) as [-> Hk].
    destruct (isSet (env !! k)); [|done]. by rewrite Hk. }
  assert (Hlist : forall k,
            commaList (filter (fun kv : string * list N => kv.2 <> []) env !! k)
            = commaList (env !! k)).
  { intros k. unfold commaList. destruct (Hset k) as [-> Hk].
    destruct (isSet (env !! k)); [|done]. by rewrite Hk. }
  unfold getTransportConfig. rewrite !Hor, !Hlist. f_equal.
  apply bool_decide_ext.
  destruct (Hset "MCP_ENABLE_DNS_PROTECTION") as [Hs Hk].
  destruct (env !! "MCP_ENABLE_DNS_PROTECTION") as [[|c v]|] eqn:Ek.
  - split; [|done]. intros E. rewrite E in Hs. done.
  - by rewrite Hk.
  - split; [|done]. intros E. rewrite E in Hs. done.
Qed.

(** ** The further theorems at the sample inputs *)


Lemma other_verbs_are_not_allowed_witness :
  method patchRequest = "PATCH"
  /\ (handleRequest patchRequest otherRuntime sampleServer).2 = sampleServer
  /\ statusCode (handleRequest patchRequest otherRuntime sampleServer).1 = 405.
Proof.
  split; [reflexivity|].
  pose proof (other_verbs_are_not_allowed patchRequest otherRuntime
                sampleServer (JObj []) eq_refl) as H.
  destruct H as (Hsrv & Hstatus & _); try discriminate.
  split; [exact Hsrv|exact Hstatus].
Defined.


Lemma message_after_terminate_is_unauthorized_witness :
  extractSessionId (terminateRequest sampleId) = Some sampleId
  /\ statusCode
       (handleRequest (messageRequest (Some sampleId)) otherRuntime
          (handleRequest (terminateRequest sampleId) otherRuntime
             sampleServer).2).1 = 401.
Proof.
  split; [reflexivity|].
  apply (message_after_terminate_is_unauthorized (terminateRequest sampleId)
           (messageRequest (Some sampleId)) otherRuntime otherRuntime
           sampleServer (JObj []) sampleBody sampleId);
    reflexivity || discriminate.
Defined.

Lemma message_after_expiry_is_unauthorized_witness :
  3601001 - 1000 > SESSION_CONFIG.MAX_AGE_MS
  /\ statusCode
       (handleRequest (messageRequest (Some sampleId)) otherRuntime
          (cleanupTick 3601001 sampleServer)).1 = 401.
Proof.
  assert (3601001 - 1000 > SESSION_CONFIG.MAX_AGE_MS) as Hold by reflexivity.
  split; [exact Hold|].
  apply (message_after_expiry_is_unauthorized (messageRequest (Some sampleId))
           otherRuntime 3601001 sampleServer sampleBody sampleId
           {| id := sampleId; response := 0;
              createdAt := 1000; lastActivity := 1000 |});
    first [reflexivity | discriminate | exact Hold].
Defined.

Lemma validateSession_tells_acceptance_witness :
  reachable sampleServer
  /\ (validateSession sampleId (sessionManager sampleServer) = true
      <-> accepted (handleRequest (messageRequest (Some sampleId))
                      otherRuntime sampleServer).1).
Proof.
  split; [exact sampleServer_reachable|].
  apply (validateSession_tells_acceptance sampleServer
           (messageRequest (Some sampleId)) otherRuntime sampleBody sampleId
           sampleServer_reachable);
    reflexivity.
Defined.

Lemma create_lookup_delete_witness :
  sessions (sessionManager sampleServer) !! otherId = None
  /\ deleteSession otherId
       (createSession 1 otherId 2000 2001 (sessionManager sampleServer)).2
     = sessionManager sampleServer.
Proof.
  assert (sessions (sessionManager sampleServer) !! otherId = None) as Hf
    by (vm_compute; reflexivity).
  split; [exact Hf|].
  apply (create_lookup_delete 1 otherId 2000 2001 0
           (sessionManager sampleServer) Hf).
Defined.

Lemma cleanupStale_composes_witness :
  3000000 <= 3601001
  /\ manager (cleanupStale 3600000 3601001
                (manager (cleanupStale 3600000 3000000
                            (sessionManager sampleServer))))
     = manager (cleanupStale 3600000 3601001 (sessionManager sampleServer)).
Proof.
  assert (3000000 <= 3601001) as Hle by discriminate.
  split; [exact Hle|].
  apply (cleanupStale_composes 3600000 3000000 3601001
           (sessionManager sampleServer) Hle).
Defined.

Lemma reissued_identifier_dies_with_the_first_stream_witness :
  consistent sampleServer
  /\ sessions
       (sessionManager
          (closeStream 0
             (handleRequest establishRequest sampleRuntime sampleServer).2))
     !! sampleId = None.
Proof.
  assert (consistent sampleServer) as Hc
    by exact (reachable_consistent _ sampleServer_reachable).
  split; [exact Hc|].
  assert (isEstablish establishRequest) as He
    by (split; [reflexivity|by exists (JObj [])]).
  assert (sessions (sessionManager sampleServer) !! uuid sampleRuntime
          = Some {| id := sampleId; response := 0;
                    createdAt := 1000; lastActivity := 1000 |}) as Hs
    by (vm_compute; reflexivity).
  pose proof (reissued_identifier_dies_with_the_first_stream establishRequest
                sampleRuntime sampleServer _ Hc He Hs)
    as (_ & _ & _ & _ & Hgone & _).
  exact Hgone.
Defined.

Lemma health_counts_sessions_with_open_streams_witness :
  reachable sampleServer
  /\ exists payload n,
       jsonBody (healthHandler "2025-11-02T10:00:00.000Z"
                   (sessionManager sampleServer) corsResponse) = Some payload
       /\ statusCode (healthHandler "2025-11-02T10:00:00.000Z"
                        (sessionManager sampleServer) corsResponse)
          = statusCode corsResponse
       /\ prop "status" payload = JStr "healthy"
       /\ prop "timestamp" payload = JStr "2025-11-02T10:00:00.000Z"
       /\ prop "activeSessions" payload = JNum n
       /\ n = getActiveCount (sessionManager sampleServer)
       /\ 0 <= n <= Z.of_nat (openCount sampleServer).
Proof.
  split; [exact sampleServer_reachable|].
  apply (health_counts_sessions_with_open_streams "2025-11-02T10:00:00.000Z"
           sampleServer corsResponse sampleServer_reachable).
Defined.




Lemma allowed_lists_hold_clean_entries_witness :
  allowedHosts (getTransportConfig (fun _ => 0) sampleEnv)
  = [units "localhost"; units "127.0.0.1"]
  /\ units "localhost" <> []
  /\ (comma ∉ units "localhost")
  /\ trimmed (units "localhost").
Proof.
  split; [vm_compute; reflexivity|].
  apply (allowed_lists_hold_clean_entries (fun _ => 0) sampleEnv
           (units "localhost")).
  left. vm_compute. left.
Defined.

(** ** The frame of a terminate request *)

Lemma getActiveCount_deleteSession y sm :
  getActiveCount sm - 1 <= getActiveCount (deleteSession y sm)
  <= getActiveCount sm.
Proof.
  unfold getActiveCount. rewrite sessions_deleteSession.
  destruct (sessions sm !! y) as [s|] eqn:Ey.
  - rewrite (map_size_delete_Some y (sessions sm)) by eauto. lia.
  - rewrite (map_size_delete_None y (sessions sm)) by done. lia.
Qed.

Lemma getActiveCount_same sm :
  getActiveCount sm - 1 <= getActiveCount sm <= getActiveCount sm.
Proof. lia. Qed.

(** A terminate request removes the session that it names and nothing else:
    every other entry of the registry and every stream are as before, so
    the count of sessions goes down by one at most. *)
Theorem terminate_removes_only_the_named_session req rt srv v :
  method req = "DELETE" -> body req = BodyParsed v ->
  let srv' := (handleRequest req rt srv).2 in
  streams srv' = streams srv
  /\ (forall x, extractSessionId req = Some x -> x <> "" ->
                sessions (sessionManager srv') !! x = None)
  /\ (forall k, extractSessionId req <> Some k ->
                sessions (sessionManager srv') !! k
                = sessions (sessionManager srv) !! k)
  /\ getActiveCount (sessionManager srv) - 1
     <= getActiveCount (sessionManager srv')
     <= getActiveCount (sessionManager srv).
Proof.
  intros Hm Hb. simpl.
  rewrite (handleRequest_DELETE _ _ _ v) by done.
  rewrite handleDeleteMcp_sessions. simpl. split; [done|].
  destruct (extractSessionId req) as [y|].
  2: { split; [done|]. split; [done|]. apply getActiveCount_same. }
  destruct (decide (y = "")) as [->|Hne].
  { split; [by intros x [= <-]|]. split; [done|].
    apply getActiveCount_same. }
  split; [|split].
  - intros x [= <-] _. rewrite sessions_deleteSession. apply lookup_delete_eq.
  - intros k Hk. rewrite sessions_deleteSession.
    apply lookup_delete_ne. congruence.
  - apply getActiveCount_deleteSession.
Qed.

Lemma terminate_removes_only_the_named_session_witness :
  method (terminateRequest sampleId) = "DELETE"
  /\ streams (handleRequest (terminateRequest sampleId) otherRuntime
                sampleServer).2
     = streams sampleServer
  /\ (forall x, extractSessionId (terminateRequest sampleId) = Some x ->
                x <> "" ->
                sessions (sessionManager
                            (handleRequest (terminateRequest sampleId)
                               otherRuntime sampleServer).2) !! x = None).
Proof.
  split; [reflexivity|].
  pose proof (terminate_removes_only_the_named_session
                (terminateRequest sampleId) otherRuntime sampleServer
                (JObj []) eq_refl eq_refl) as (Hstreams & Hgone & _).
  split; [exact Hstreams|exact Hgone].
Defined.

Lemma session_enters_only_by_establish_witness :
  sessions (sessionManager sampleServer) !! otherId = None
  /\ exists req rt,
       EvRequest establishRequest otherRuntime = EvRequest req rt
       /\ method req = "GET" /\ uuid rt = otherId.
Proof.
  assert (sessions (sessionManager sampleServer) !! otherId = None) as Hno
    by (vm_compute; reflexivity).
  split; [exact Hno|].
  apply (session_enters_only_by_establish sampleServer
           (EvRequest establishRequest otherRuntime) otherId Hno).
  vm_compute. eexists. reflexivity.
Defined.

Lemma session_leaves_only_by_removal_witness :
  sessions (sessionManager (step sampleServer (EvCleanup 3601001)))
    !! sampleId = None
  /\ ((exists req rt, EvCleanup 3601001 = EvRequest req rt
                      /\ method req = "DELETE"
                      /\ extractSessionId req = Some sampleId)
      \/ (exists h st, EvCleanup 3601001 = EvClose h
                       /\ streams sampleServer !! h = Some st
                       /\ closed st = false /\ closeListener st = sampleId)
      \/ (exists now, EvCleanup 3601001 = EvCleanup now
                      /\ now - 1000 > SESSION_CONFIG.MAX_AGE_MS)).
Proof.
  assert (sessions (sessionManager (step sampleServer (EvCleanup 3601001)))
            !! sampleId = None) as Hgone by (vm_compute; reflexivity).
  split; [exact Hgone|].
  apply (session_leaves_only_by_removal sampleServer (EvCleanup 3601001)
           sampleId
           {| id := sampleId; response := 0;
              createdAt := 1000; lastActivity := 1000 |});
    [vm_compute; reflexivity|exact Hgone].
Defined.
